(** * Canada-wide income tax calculator: bracket engine and payroll summary

    A shallow embedding of [tax_calculator_AllofCanada.py].  Python floats
    are read as exact rationals ([Q]): every decimal literal of the source
    is the rational it denotes, and [+], [-], [*], [/] are the exact field
    operations.  Rounding of binary floating point and the two-decimal
    formatting of the displayed strings are outside the model. *)

From Stdlib Require Import QArith Qminmax Qabs Lqa Lia PeanoNat List String Bool.
From Stdlib Require Import Sorting.Sorted Sorting.Permutation.
Import ListNotations.
Open Scope Q_scope.

(** ** Python exceptions and results *)

Inductive PyError : Type :=
| IndexError
| KeyError (key : string).

Inductive result (A : Type) : Type :=
| Ok (value : A)
| Raise (err : PyError).
Arguments Ok {A} value.
Arguments Raise {A} err.

(** [x > y] and [x < y] on numbers, as booleans. *)
Definition Qgtb (x y : Q) : bool :=
  match x ?= y with Gt => true | _ => false end.

Definition Qltb (x y : Q) : bool :=
  match x ?= y with Lt => true | _ => false end.

(** [l[-1]]: the last item, [IndexError] on an empty sequence. *)
Definition last_item (l : list Q) : result Q :=
  match l with
  | [] => Raise IndexError
  | x :: l' => Ok (last l' x)
  end.

(** ** The bracket walk of [calculate_tax] *)

Module BracketTaxEngine.

(** The [for bracket, rate in zip(brackets, rates)] loop, with the loop
    variables [tax] and [last_bracket] threaded through. *)
Fixpoint bracket_loop (income tax last_bracket : Q) (pairs : list (Q * Q)) : Q :=
  match pairs with
  | [] => tax
  | (bracket, rate) :: rest =>
      if Qgtb income bracket
      then bracket_loop income (tax + (bracket - last_bracket) * rate) bracket rest
      else tax + (income - last_bracket) * rate
  end.

(** Position of the pair at which the loop executes [break]; [None] when
    the loop runs off the end of the zipped sequence. *)
Fixpoint break_index (income : Q) (pairs : list (Q * Q)) : option nat :=
  match pairs with
  | [] => None
  | (bracket, _) :: rest =>
      if Qgtb income bracket
      then option_map S (break_index income rest)
      else Some O
  end.

Definition calculate_tax (income : Q) (brackets rates : list Q) : result Q :=
  let tax := bracket_loop income 0 0 (combine brackets rates) in
  match last_item brackets with
  | Raise e => Raise e
  | Ok top =>
      if Qgtb income top
      then match last_item rates with
           | Raise e => Raise e
           | Ok top_rate => Ok (tax + (income - top) * top_rate)
           end
      else Ok tax
  end.

End BracketTaxEngine.
Import BracketTaxEngine.

(** ** Static data *)

Definition FEDERAL_BRACKETS : list Q := [50197; 100392; 155625; 221708].
Definition FEDERAL_RATES : list Q := [0.15; 0.205; 0.26; 0.29; 0.33].

Record TaxInfo : Type := mkTaxInfo { brackets : list Q; rates : list Q }.

(** The dict literal, in insertion order. *)
Definition PROVINCIAL_TAX_INFO : list (string * TaxInfo) :=
  [ ("Alberta"%string,
      mkTaxInfo [131220; 157464; 209952; 314928] [0.10; 0.12; 0.13; 0.14; 0.15]);
    ("British Columbia"%string,
      mkTaxInfo [43070; 86141; 98901; 120094; 162832]
                [0.0506; 0.077; 0.105; 0.1229; 0.147; 0.168]);
    ("Manitoba"%string,
      mkTaxInfo [34670; 73710] [0.108; 0.1275; 0.174]);
    ("New Brunswick"%string,
      mkTaxInfo [45277; 90556; 138491; 160776] [0.0968; 0.1482; 0.1652; 0.1784; 0.203]);
    ("Newfoundland and Labrador"%string,
      mkTaxInfo [39222; 78447; 139780; 200000] [0.087; 0.145; 0.158; 0.183; 0.21]);
    ("Northwest Territories"%string,
      mkTaxInfo [45629; 91259; 147667] [0.059; 0.086; 0.122; 0.1405]);
    ("Nova Scotia"%string,
      mkTaxInfo [29590; 59180; 93000; 150000] [0.0879; 0.1495; 0.1667; 0.175; 0.21]);
    ("Nunavut"%string,
      mkTaxInfo [48229; 96458; 156183] [0.04; 0.07; 0.09; 0.115]);
    ("Ontario"%string,
      mkTaxInfo [46226; 92454; 150000; 220000] [0.0505; 0.0915; 0.1116; 0.1216; 0.1316]);
    ("Prince Edward Island"%string,
      mkTaxInfo [31984; 63969] [0.098; 0.138; 0.167]);
    ("Quebec"%string,
      mkTaxInfo [46295; 92595; 113785; 108390] [0.15; 0.20; 0.24; 0.2575]);
    ("Saskatchewan"%string,
      mkTaxInfo [46677; 133638] [0.105; 0.125; 0.145]);
    ("Yukon"%string,
      mkTaxInfo [51296; 102592; 155625; 500000] [0.064; 0.09; 0.109; 0.128; 0.15]) ].

(** The value stored under the key ["Quebec"]. *)
Definition QUEBEC : TaxInfo :=
  mkTaxInfo [46295; 92595; 113785; 108390] [0.15; 0.20; 0.24; 0.2575].

Definition CPP_RATE : Q := 0.0525.
Definition CPP_MAX : Q := 3500.
Definition EI_RATE : Q := 0.0158.
Definition EI_MAX : Q := 889.54.

(** [d[key]] on a dict kept as an association list. *)
Fixpoint getitem {V : Type} (d : list (string * V)) (key : string) : result V :=
  match d with
  | [] => Raise (KeyError key)
  | (k, v) :: d' => if String.eqb k key then Ok v else getitem d' key
  end.

(** ** The page: inputs, what is shown, and the [Calculate Taxes] branch *)

Inductive IncomeType : Type := MonthlyInput | AnnualInput.
Inductive Frequency : Type := Biweekly | Monthly | Yearly.

(** The values of the widgets when the button is pressed. *)
Record Inputs : Type := mkInputs {
  province : string;
  income_type : IncomeType;
  entered_income : Q;
  output_frequency : Frequency;
  show_federal_tax : bool;
  show_prov_tax : bool;
  show_cpp : bool;
  show_ei : bool
}.

(** One [st.write] line or the [st.table]; amounts are kept as numbers,
    before the [.2f] formatting. *)
Inductive Shown : Type :=
| FederalTaxLine (f : Frequency) (amount : Q)
| ProvincialTaxLine (f : Frequency) (prov : string) (amount : Q)
| CPPLine (f : Frequency) (amount : Q)
| EILine (f : Frequency) (amount : Q)
| NetIncomeLine (f : Frequency) (prov : string) (amount : Q)
| ComparisonTable (rows : list (string * Q)).

(** Computations that append to the page and may raise. *)
Module App.

Definition App (A : Type) : Type := list Shown -> list Shown * result A.

Definition ret {A} (a : A) : App A := fun page => (page, Ok a).

Definition bind {A B} (c : App A) (k : A -> App B) : App B :=
  fun page =>
    match c page with
    | (page', Ok a) => k a page'
    | (page', Raise e) => (page', Raise e)
    end.

Definition lift {A} (r : result A) : App A := fun page => (page, r).

Definition write (s : Shown) : App unit := fun page => (page ++ [s], Ok tt).

Definition when (b : bool) (c : App unit) : App unit :=
  if b then c else ret tt.

End App.
Import App.

Notation "x <- c ;; k" := (bind c (fun x => k))
  (at level 61, c at next level, right associativity).
Notation "c ;;; k" := (bind c (fun _ => k))
  (at level 61, right associativity).

Definition frequency_factor (f : Frequency) : Q :=
  match f with
  | Yearly => 1
  | Monthly => 12
  | Biweekly => 26
  end.

(** [df.sort_values(by="Province")]: rows ordered by their name column. *)
Fixpoint insert_row {V : Type} (row : string * V) (sorted : list (string * V))
  : list (string * V) :=
  match sorted with
  | [] => [row]
  | r :: rest =>
      if String.leb (fst row) (fst r)
      then row :: sorted
      else r :: insert_row row rest
  end.

Fixpoint sort_values {V : Type} (rows : list (string * V)) : list (string * V) :=
  match rows with
  | [] => []
  | r :: rest => insert_row r (sort_values rest)
  end.

(** [income * CPP_RATE if income * CPP_RATE < CPP_MAX else CPP_MAX] *)
Definition cpp_contribution (income : Q) : Q :=
  if Qltb (income * CPP_RATE) CPP_MAX then income * CPP_RATE else CPP_MAX.

(** [income * EI_RATE if income * EI_RATE < EI_MAX else EI_MAX] *)
Definition ei_contribution (income : Q) : Q :=
  if Qltb (income * EI_RATE) EI_MAX then income * EI_RATE else EI_MAX.

(** The [for prov, tax_info in PROVINCIAL_TAX_INFO.items()] loop. *)
Fixpoint comparison_loop (income federal_tax cpp ei multiplier : Q)
    (items : list (string * TaxInfo)) (results : list (string * Q))
  : result (list (string * Q)) :=
  match items with
  | [] => Ok results
  | (prov, tax_info) :: rest =>
      match calculate_tax income (brackets tax_info) (rates tax_info) with
      | Raise e => Raise e
      | Ok prov_tax =>
          let net := income - (federal_tax + prov_tax + cpp + ei) in
          comparison_loop income federal_tax cpp ei multiplier rest
                          (results ++ [(prov, net * multiplier)])
      end
  end.

Definition annual_income (ui : Inputs) : Q :=
  match income_type ui with
  | MonthlyInput => entered_income ui * 12
  | AnnualInput => entered_income ui
  end.

Definition map_result {A B} (f : A -> B) (r : result A) : result B :=
  match r with
  | Ok a => Ok (f a)
  | Raise e => Raise e
  end.

(** The body of [if st.button('Calculate Taxes'):]. *)
Definition calculate_taxes (ui : Inputs) : App unit :=
  let income := annual_income ui in
  let province := province ui in
  let output_frequency := output_frequency ui in
  provincial_brackets <- lift (map_result brackets (getitem PROVINCIAL_TAX_INFO province)) ;;
  provincial_rates <- lift (map_result rates (getitem PROVINCIAL_TAX_INFO province)) ;;
  federal_tax <- lift (calculate_tax income FEDERAL_BRACKETS FEDERAL_RATES) ;;
  provincial_tax <- lift (calculate_tax income provincial_brackets provincial_rates) ;;
  let cpp := cpp_contribution income in
  let ei := ei_contribution income in
  let total_deductions := federal_tax + provincial_tax + cpp + ei in
  let net_income := income - total_deductions in
  let multiplier := 1 / frequency_factor output_frequency in
  when (show_federal_tax ui)
       (write (FederalTaxLine output_frequency (federal_tax * multiplier))) ;;;
  when (show_prov_tax ui)
       (write (ProvincialTaxLine output_frequency province (provincial_tax * multiplier))) ;;;
  when (show_cpp ui)
       (write (CPPLine output_frequency (cpp * multiplier))) ;;;
  when (show_ei ui)
       (write (EILine output_frequency (ei * multiplier))) ;;;
  write (NetIncomeLine output_frequency province (net_income * multiplier)) ;;;
  results <- lift (comparison_loop income federal_tax cpp ei multiplier
                                   PROVINCIAL_TAX_INFO []) ;;
  write (ComparisonTable (sort_values results)).

(** The page after the button press, starting from an empty result area. *)
Definition run (ui : Inputs) : list Shown * result unit := calculate_taxes ui [].

(** The amounts a page element shows, in display order. *)
Definition amounts (s : Shown) : list Q :=
  match s with
  | FederalTaxLine _ a => [a]
  | ProvincialTaxLine _ _ a => [a]
  | CPPLine _ a => [a]
  | EILine _ a => [a]
  | NetIncomeLine _ _ a => [a]
  | ComparisonTable rows => map snd rows
  end.

Definition displayed_amounts (page : list Shown) : list Q := flat_map amounts page.

(** ** The bracket-table invariant and the marginal-rate integral *)

(** [p < b1 < b2 < ...]: the thresholds increase strictly, starting above [p]. *)
Fixpoint increasing_from (p : Q) (thresholds : list Q) : Prop :=
  match thresholds with
  | [] => True
  | b :: rest => p < b /\ increasing_from b rest
  end.

(** Thresholds strictly increasing and positive, one more rate than thresholds. *)
Definition bracket_table (thresholds rates : list Q) : Prop :=
  increasing_from 0 thresholds /\ List.length rates = S (List.length thresholds).

Fixpoint increasing_fromb (p : Q) (thresholds : list Q) : bool :=
  match thresholds with
  | [] => true
  | b :: rest => Qltb p b && increasing_fromb b rest
  end.

(** The invariant as a check that can be run on a table. *)
Definition bracket_table_ok (thresholds rates : list Q) : bool :=
  increasing_fromb 0 thresholds && Nat.eqb (List.length rates) (S (List.length thresholds)).

Definition nonnegative (rates : list Q) : Prop := Forall (fun r => 0 <= r) rates.

(** The brackets of a table as (previous threshold, threshold, rate),
    the first bracket starting at [p]. *)
Definition slices_from (p : Q) (thresholds rates : list Q) : list (Q * Q * Q) :=
  combine (combine (p :: thresholds) thresholds) rates.

Definition sumQ (l : list Q) : Q := fold_right Qplus 0 l.

Definition width_tax (s : Q * Q * Q) : Q :=
  let '(prev, b, rate) := s in (b - prev) * rate.

(** Sum of [(b_i - b_{i-1}) * rates[i]] over the thresholds [b_i < income]. *)
Definition full_brackets_below (p income : Q) (thresholds rates : list Q) : Q :=
  sumQ (map width_tax
            (filter (fun s => Qltb (snd (fst s)) income) (slices_from p thresholds rates))).

(** The greatest threshold strictly below [income], [p] if there is none. *)
Definition greatest_below (p income : Q) (thresholds : list Q) : Q :=
  fold_right Qmax p (filter (fun b => Qltb b income) thresholds).

(** The rate of the first bracket whose threshold is [>= income], the top
    rate when [income] exceeds every threshold. *)
Definition rate_at (income : Q) (thresholds rates : list Q) : Q :=
  match find (fun br => negb (Qgtb income (fst br))) (combine thresholds rates) with
  | Some (_, rate) => rate
  | None => last rates 0
  end.

(** The marginal-rate integral of the specification, written from its words. *)
Definition marginal_integral_from (p income : Q) (thresholds rates : list Q) : Q :=
  full_brackets_below p income thresholds rates
  + (income - greatest_below p income thresholds) * rate_at income thresholds rates.

Definition marginal_integral (income : Q) (thresholds rates : list Q) : Q :=
  marginal_integral_from 0 income thresholds rates.

(** What [calculate_tax] adds after its loop, as a number. *)
Definition residual (income p : Q) (thresholds rates : list Q) : Q :=
  if Qgtb income (last thresholds p)
  then (income - last thresholds p) * last rates 0
  else 0.

(** The tax, read off a result; [0] stands for a raised exception. *)
Definition tax_value (income : Q) (thresholds rates : list Q) : Q :=
  match calculate_tax income thresholds rates with
  | Ok t => t
  | Raise _ => 0
  end.

Definition multiplier (f : Frequency) : Q := 1 / frequency_factor f.

(** The loop started in the state ([tax], [p]) followed by the final test. *)
Definition tax_from (income tax p : Q) (thresholds rates : list Q) : Q :=
  bracket_loop income tax p (combine thresholds rates)
  + residual income p thresholds rates.

(** Annual net income per registered province, in registry order. *)
Definition comparison_nets (income federal_tax cpp ei : Q)
    (items : list (string * TaxInfo)) : list (string * Q) :=
  map (fun e =>
         (fst e,
          income - (federal_tax
                    + tax_value income (brackets (snd e)) (rates (snd e))
                    + cpp + ei)))
      items.

Definition scale_rows (m : Q) (rows : list (string * Q)) : list (string * Q) :=
  map (fun r => (fst r, snd r * m)) rows.

(** The lines written before the table, for given federal and provincial tax. *)
Definition shown_lines (ui : Inputs) (federal_tax provincial_tax : Q) : list Shown :=
  let income := annual_income ui in
  let f := output_frequency ui in
  let m := multiplier f in
  (if show_federal_tax ui then [FederalTaxLine f (federal_tax * m)] else [])
  ++ (if show_prov_tax ui
      then [ProvincialTaxLine f (province ui) (provincial_tax * m)] else [])
  ++ (if show_cpp ui then [CPPLine f (cpp_contribution income * m)] else [])
  ++ (if show_ei ui then [EILine f (ei_contribution income * m)] else [])
  ++ [NetIncomeLine f (province ui)
        ((income - (federal_tax + provincial_tax
                    + cpp_contribution income + ei_contribution income)) * m)].

(** The annual amounts behind [shown_lines], in the same order. *)
Definition annual_lines (ui : Inputs) (federal_tax provincial_tax : Q) : list Q :=
  let income := annual_income ui in
  (if show_federal_tax ui then [federal_tax] else [])
  ++ (if show_prov_tax ui then [provincial_tax] else [])
  ++ (if show_cpp ui then [cpp_contribution income] else [])
  ++ (if show_ei ui then [ei_contribution income] else [])
  ++ [income - (federal_tax + provincial_tax
                + cpp_contribution income + ei_contribution income)].

(** The annual amounts behind a page, in display order; the output
    frequency is not among the arguments. *)
Definition annual_amounts (prov : string) (ty : IncomeType) (entered : Q)
    (sf sp sc se : bool) : list Q :=
  let ui := mkInputs prov ty entered Yearly sf sp sc se in
  let income := annual_income ui in
  let federal_tax := tax_value income FEDERAL_BRACKETS FEDERAL_RATES in
  match getitem PROVINCIAL_TAX_INFO prov with
  | Ok info =>
      annual_lines ui federal_tax (tax_value income (brackets info) (rates info))
      ++ map snd (comparison_nets income federal_tax (cpp_contribution income)
                    (ei_contribution income) PROVINCIAL_TAX_INFO)
  | Raise _ => []
  end.

(** [b] shows what [a] shows, with every amount divided by [k]. *)
Definition rescaled (k : Q) (a b : Shown) : Prop :=
  match a, b with
  | FederalTaxLine _ x, FederalTaxLine _ y => y == x / k
  | ProvincialTaxLine _ p x, ProvincialTaxLine _ q y => p = q /\ y == x / k
  | CPPLine _ x, CPPLine _ y => y == x / k
  | EILine _ x, EILine _ y => y == x / k
  | NetIncomeLine _ p x, NetIncomeLine _ q y => p = q /\ y == x / k
  | ComparisonTable rows, ComparisonTable rows' =>
      Forall2 (fun r r' => fst r = fst r' /\ snd r' == snd r / k) rows rows'
  | _, _ => False
  end.

(** Names in strictly ascending lexicographic order. *)
Definition name_lt (a b : string) : Prop := String.compare a b = Lt.

(** Every rate lies between 0 and [R]. *)
Definition rates_within (R : Q) (rates : list Q) : Prop :=
  Forall (fun r => 0 <= r /\ r <= R) rates.

(** Whether the checkboxes let a page element through. *)
Definition visible (ui : Inputs) (s : Shown) : bool :=
  match s with
  | FederalTaxLine _ _ => show_federal_tax ui
  | ProvincialTaxLine _ _ _ => show_prov_tax ui
  | CPPLine _ _ => show_cpp ui
  | EILine _ _ => show_ei ui
  | NetIncomeLine _ _ _ => true
  | ComparisonTable _ => true
  end.

(** The same inputs with the four checkboxes ticked. *)
Definition show_everything (ui : Inputs) : Inputs :=
  mkInputs (province ui) (income_type ui) (entered_income ui) (output_frequency ui)
           true true true true.



(** The rows of the comparison table of a page. *)
Fixpoint table_shown (page : list Shown) : option (list (string * Q)) :=
  match page with
  | [] => None
  | ComparisonTable rows :: _ => Some rows
  | _ :: rest => table_shown rest
  end.

(** The tax of a table lies between 0 and [c] times the income and grows
    by at most [c] per dollar. *)
Definition grows_at_most (c : Q) (info : TaxInfo) : Prop :=
  forall x y, 0 <= x -> x <= y ->
    0 <= tax_value x (brackets info) (rates info)
    /\ tax_value x (brackets info) (rates info) <= c * x
    /\ tax_value y (brackets info) (rates info)
       - tax_value x (brackets info) (rates info) <= c * (y - x).

(** Annual net income for a table: the income less the four deductions. *)
Definition annual_net (income : Q) (info : TaxInfo) : Q :=
  income - (tax_value income FEDERAL_BRACKETS FEDERAL_RATES
            + tax_value income (brackets info) (rates info)
            + cpp_contribution income + ei_contribution income).

(** ** Comparisons *)

Lemma Qgtb_cases (x y : Q) :
  (y < x /\ Qgtb x y = true) \/ (x <= y /\ Qgtb x y = false).
Proof.
  unfold Qgtb. destruct (x ?= y) eqn:E.
  - right. split; [|reflexivity]. apply Qeq_alt in E. rewrite E. apply Qle_refl.
  - right. split; [|reflexivity]. apply Qlt_alt in E. apply Qlt_le_weak, E.
  - left. split; [|reflexivity]. apply Qgt_alt in E. exact E.
Qed.

Lemma Qltb_cases (x y : Q) :
  (x < y /\ Qltb x y = true) \/ (y <= x /\ Qltb x y = false).
Proof.
  unfold Qltb. destruct (x ?= y) eqn:E.
  - right. split; [|reflexivity]. apply Qeq_alt in E. rewrite E. apply Qle_refl.
  - left. split; [|reflexivity]. apply Qlt_alt in E. exact E.
  - right. split; [|reflexivity]. apply Qgt_alt in E. apply Qlt_le_weak, E.
Qed.

Lemma Qgtb_true_intro (x y : Q) : y < x -> Qgtb x y = true.
Proof. intros H. destruct (Qgtb_cases x y) as [[_ E]|[C _]]; [exact E | lra]. Qed.

Lemma Qgtb_false_intro (x y : Q) : x <= y -> Qgtb x y = false.
Proof. intros H. destruct (Qgtb_cases x y) as [[C _]|[_ E]]; [lra | exact E]. Qed.

Lemma Qltb_true_intro (x y : Q) : x < y -> Qltb x y = true.
Proof. intros H. destruct (Qltb_cases x y) as [[_ E]|[C _]]; [exact E | lra]. Qed.

Lemma Qltb_false_intro (x y : Q) : y <= x -> Qltb x y = false.
Proof. intros H. destruct (Qltb_cases x y) as [[C _]|[_ E]]; [lra | exact E]. Qed.

(** Case split on the test of a conditional of the source. *)
Ltac split_gt x y :=
  let H := fresh "Hcmp" in
  let E := fresh "Ecmp" in
  destruct (Qgtb_cases x y) as [[H E]|[H E]]; rewrite ?E in *.

Ltac split_lt x y :=
  let H := fresh "Hcmp" in
  let E := fresh "Ecmp" in
  destruct (Qltb_cases x y) as [[H E]|[H E]]; rewrite ?E in *.

(** ** The invariant, as a proposition and as a check *)

Lemma increasing_fromb_spec (ths : list Q) :
  forall p, increasing_fromb p ths = true <-> increasing_from p ths.
Proof.
  induction ths as [|b ths IH]; intros p; simpl.
  - tauto.
  - rewrite andb_true_iff, IH. split; intros [H1 H2]; split; trivial.
    + split_lt p b; [assumption | discriminate].
    + apply Qltb_true_intro, H1.
Qed.

Lemma bracket_table_ok_spec (ths rates : list Q) :
  bracket_table_ok ths rates = true <-> bracket_table ths rates.
Proof.
  unfold bracket_table_ok, bracket_table.
  rewrite andb_true_iff, increasing_fromb_spec, Nat.eqb_eq. tauto.
Qed.


Lemma last_cons (ths : list Q) : forall b d, last (b :: ths) d = last ths b.
Proof.
  induction ths as [|c ths IH]; intros b d; [reflexivity|].
  change (last (b :: c :: ths) d) with (last (c :: ths) d).
  now rewrite !IH.
Qed.

Lemma increasing_from_last (ths : list Q) :
  forall p, increasing_from p ths -> p <= last ths p.
Proof.
  induction ths as [|b ths IH]; intros p H.
  - simpl. lra.
  - destruct H as [H1 H2]. specialize (IH b H2).
    rewrite last_cons. lra.
Qed.

Lemma increasing_from_all (ths : list Q) :
  forall p, increasing_from p ths -> Forall (fun b => p < b) ths.
Proof.
  induction ths as [|b ths IH]; intros p H; constructor.
  - apply H.
  - destruct H as [H1 H2]. specialize (IH b H2).
    eapply Forall_impl; [|exact IH]. simpl. intros a Ha. lra.
Qed.

(** ** One step of the walk *)

Lemma last_nonempty (r : Q) (rs : list Q) (d : Q) :
  rs <> [] -> last (r :: rs) d = last rs d.
Proof. destruct rs; [congruence | reflexivity]. Qed.

Lemma tax_from_nil (income tax p : Q) (rates : list Q) :
  p < income ->
  tax_from income tax p [] rates == tax + (income - p) * last rates 0.
Proof.
  intros H. unfold tax_from, residual. simpl.
  rewrite (Qgtb_true_intro _ _ H). reflexivity.
Qed.

Lemma tax_from_stop (income tax p b r : Q) (ths rs : list Q) :
  income <= b -> increasing_from b ths ->
  tax_from income tax p (b :: ths) (r :: rs) == tax + (income - p) * r.
Proof.
  intros H Hinc. unfold tax_from, residual. simpl combine. simpl bracket_loop.
  rewrite (Qgtb_false_intro _ _ H), last_cons.
  rewrite Qgtb_false_intro; [ring|].
  pose proof (increasing_from_last _ _ Hinc). lra.
Qed.

Lemma tax_from_continue (income tax p b r : Q) (ths rs : list Q) :
  b < income -> rs <> [] ->
  tax_from income tax p (b :: ths) (r :: rs)
  = tax_from income (tax + (b - p) * r) b ths rs.
Proof.
  intros H Hrs. unfold tax_from, residual. simpl combine. simpl bracket_loop.
  rewrite (Qgtb_true_intro _ _ H), last_cons, (last_nonempty _ _ _ Hrs).
  reflexivity.
Qed.

Lemma rates_nonempty (ths rs : list Q) :
  List.length rs = S (List.length ths) -> rs <> [].
Proof. destruct rs; simpl; [discriminate | congruence]. Qed.

(** ** The same steps on the integral of the specification *)

Lemma filter_slices_none (income : Q) (ths : list Q) :
  forall p rates, Forall (fun b => income <= b) ths ->
  filter (fun s : Q * Q * Q => Qltb (snd (fst s)) income) (slices_from p ths rates) = [].
Proof.
  unfold slices_from.
  induction ths as [|b ths IH]; intros p rates H.
  - reflexivity.
  - destruct rates as [|r rs]; [reflexivity|].
    inversion H as [|? ? Hb Hrest]; subst. simpl.
    rewrite (Qltb_false_intro _ _ Hb). apply IH, Hrest.
Qed.

Lemma filter_thresholds_none (income : Q) (ths : list Q) :
  Forall (fun b => income <= b) ths ->
  filter (fun b => Qltb b income) ths = [].
Proof.
  induction 1 as [|b ths Hb _ IH]; simpl; [reflexivity|].
  now rewrite (Qltb_false_intro _ _ Hb).
Qed.

Lemma fold_max_swap (l : list Q) :
  forall p b, p <= b -> Qmax b (fold_right Qmax p l) == fold_right Qmax b l.
Proof.
  induction l as [|a l IH]; intros p b H; simpl.
  - apply Q.max_l, H.
  - rewrite Q.max_assoc, (Q.max_comm b a), <- Q.max_assoc.
    rewrite (IH p b H). reflexivity.
Qed.

Lemma integral_nil (p income : Q) (rates : list Q) :
  marginal_integral_from p income [] rates == (income - p) * last rates 0.
Proof.
  unfold marginal_integral_from, full_brackets_below, greatest_below, rate_at.
  simpl. ring.
Qed.

Lemma integral_stop (p income b r : Q) (ths rs : list Q) :
  income <= b -> increasing_from b ths ->
  marginal_integral_from p income (b :: ths) (r :: rs) == (income - p) * r.
Proof.
  intros H Hinc.
  assert (Hall : Forall (fun a => income <= a) (b :: ths)).
  { constructor; [exact H|].
    eapply Forall_impl; [|apply (increasing_from_all _ _ Hinc)].
    simpl. intros a Ha. lra. }
  unfold marginal_integral_from, full_brackets_below, greatest_below, rate_at.
  rewrite (filter_slices_none _ _ _ _ Hall), (filter_thresholds_none _ _ Hall).
  simpl. rewrite (Qgtb_false_intro _ _ H). simpl. ring.
Qed.

Lemma integral_continue (p income b r : Q) (ths rs : list Q) :
  b < income -> p <= b -> rs <> [] ->
  marginal_integral_from p income (b :: ths) (r :: rs)
  == (b - p) * r + marginal_integral_from b income ths rs.
Proof.
  intros H Hp Hrs.
  unfold marginal_integral_from, full_brackets_below, greatest_below, rate_at,
    slices_from.
  simpl. rewrite (Qltb_true_intro _ _ H), (Qgtb_true_intro _ _ H). simpl.
  rewrite (fold_max_swap _ p b Hp).
  destruct rs as [|r' rs']; [congruence|].
  ring.
Qed.

(** The walk computes the integral, from any state the loop can be in. *)
Lemma tax_from_integral (income : Q) (ths : list Q) :
  forall p tax rates,
    ths <> [] \/ p < income ->
    increasing_from p ths ->
    List.length rates = S (List.length ths) ->
    tax_from income tax p ths rates
    == tax + marginal_integral_from p income ths rates.
Proof.
  induction ths as [|b ths IH]; intros p tax rates Hne Hinc Hlen.
  - destruct Hne as [Hne|Hlt]; [congruence|].
    rewrite (tax_from_nil _ _ _ _ Hlt), integral_nil. reflexivity.
  - destruct rates as [|r rs]; [discriminate|].
    simpl in Hlen. injection Hlen as Hlen.
    pose proof (rates_nonempty _ _ Hlen) as Hrs.
    destruct Hinc as [Hpb Hinc].
    destruct (Qlt_le_dec b income) as [Hgt|Hle].
    + rewrite (tax_from_continue _ _ _ _ _ _ _ Hgt Hrs).
      rewrite (IH b _ rs (or_intror Hgt) Hinc Hlen).
      rewrite (integral_continue p income b r ths rs Hgt (Qlt_le_weak _ _ Hpb) Hrs).
      ring.
    + rewrite (tax_from_stop _ _ _ _ _ _ _ Hle Hinc).
      rewrite (integral_stop p income b r ths rs Hle Hinc).
      reflexivity.
Qed.

(** ** [calculate_tax] in terms of the walk *)

Lemma calculate_tax_ok (income : Q) (ths rates : list Q) :
  ths <> [] -> rates <> [] ->
  calculate_tax income ths rates = Ok (tax_value income ths rates).
Proof.
  intros Ht Hr. unfold tax_value, calculate_tax.
  destruct ths as [|b ths]; [congruence|].
  destruct rates as [|r rs]; [congruence|].
  unfold last_item. destruct (Qgtb income (last ths b)); reflexivity.
Qed.

Lemma tax_value_from (income : Q) (ths rates : list Q) :
  ths <> [] -> rates <> [] ->
  tax_value income ths rates == tax_from income 0 0 ths rates.
Proof.
  intros Ht Hr. unfold tax_value, calculate_tax, tax_from, residual.
  destruct ths as [|b ths]; [congruence|].
  destruct rates as [|r rs]; [congruence|].
  unfold last_item. rewrite !last_cons.
  destruct (Qgtb income (last ths b)); ring.
Qed.

(** ** Income exactly at a threshold *)

Lemma increasing_from_before (pre : list Q) (b : Q) (post : list Q) :
  forall p, increasing_from p (pre ++ b :: post) -> p < b.
Proof.
  intros p H. apply increasing_from_all in H.
  rewrite Forall_forall in H. apply H. apply in_or_app. right. left. reflexivity.
Qed.

Lemma last_after (pre : list Q) (b : Q) (post : list Q) :
  forall d, increasing_from d (pre ++ b :: post) -> b <= last (pre ++ b :: post) d.
Proof.
  induction pre as [|a pre IH]; intros d H.
  - destruct H as [_ H]. simpl app. rewrite last_cons.
    apply increasing_from_last, H.
  - destruct H as [_ H]. change ((a :: pre) ++ b :: post) with (a :: pre ++ b :: post).
    rewrite last_cons. apply IH, H.
Qed.

Lemma walk_to_threshold (b : Q) (post : list Q) (pre : list Q) :
  forall p tax rates,
    increasing_from p (pre ++ b :: post) ->
    List.length rates = S (List.length (pre ++ b :: post)) ->
    bracket_loop b tax p (combine (pre ++ b :: post) rates)
    = bracket_loop b tax p (combine (pre ++ [b]) rates)
    /\ break_index b (combine (pre ++ b :: post) rates) = Some (List.length pre)
    /\ bracket_loop b tax p (combine (pre ++ [b]) rates)
       == tax + sumQ (map width_tax (slices_from p pre rates))
          + (b - last pre p) * nth (List.length pre) rates 0.
Proof.
  induction pre as [|a pre IH]; intros p tax rates Hinc Hlen;
    (destruct rates as [|r rs]; [discriminate|]).
  - simpl. rewrite (Qgtb_false_intro b b (Qle_refl b)).
    repeat split. unfold sumQ. simpl. ring.
  - simpl in Hlen. injection Hlen as Hlen.
    destruct Hinc as [Hpa Hinc].
    pose proof (increasing_from_before _ _ _ _ Hinc) as Hab.
    destruct (IH a (tax + (a - p) * r) rs Hinc Hlen) as (E1 & E2 & E3).
    simpl app. simpl combine. simpl bracket_loop. simpl break_index.
    rewrite (Qgtb_true_intro _ _ Hab), E1, E2.
    repeat split.
    rewrite E3, last_cons. unfold slices_from, sumQ. simpl. ring.
Qed.

(** ** Monotonicity of the walk *)

Lemma last_nonnegative (rates : list Q) :
  nonnegative rates -> 0 <= last rates 0.
Proof.
  induction 1 as [|r rs Hr _ IH]; simpl; [lra|].
  destruct rs; [exact Hr | exact IH].
Qed.

Lemma tax_from_lower_bound (income : Q) (ths : list Q) :
  forall p tax rates,
    p <= income -> increasing_from p ths -> nonnegative rates ->
    List.length rates = S (List.length ths) ->
    tax <= tax_from income tax p ths rates.
Proof.
  induction ths as [|b ths IH]; intros p tax rates Hp Hinc Hnn Hlen.
  - pose proof (last_nonnegative _ Hnn) as Hl.
    unfold tax_from, residual. simpl.
    split_gt income p; nra.
  - destruct rates as [|r rs]; [discriminate|].
    simpl in Hlen. injection Hlen as Hlen.
    pose proof (rates_nonempty _ _ Hlen) as Hrs.
    destruct Hinc as [Hpb Hinc]. inversion Hnn as [|? ? Hr Hnn']; subst.
    destruct (Qlt_le_dec b income) as [Hgt|Hle].
    + rewrite (tax_from_continue _ _ _ _ _ _ _ Hgt Hrs).
      specialize (IH b (tax + (b - p) * r) rs (Qlt_le_weak _ _ Hgt) Hinc Hnn' Hlen).
      nra.
    + rewrite (tax_from_stop _ _ _ _ _ _ _ Hle Hinc). nra.
Qed.

Lemma tax_from_monotone (ths : list Q) :
  forall x y p tax rates,
    x <= y -> ths <> [] \/ p < x ->
    p <= x -> increasing_from p ths -> nonnegative rates ->
    List.length rates = S (List.length ths) ->
    tax_from x tax p ths rates <= tax_from y tax p ths rates.
Proof.
  induction ths as [|b ths IH]; intros x y p tax rates Hxy Hne Hp Hinc Hnn Hlen.
  - destruct Hne as [Hne|Hlt]; [congruence|].
    pose proof (last_nonnegative _ Hnn) as Hl.
    rewrite !tax_from_nil by lra. nra.
  - destruct rates as [|r rs]; [discriminate|].
    simpl in Hlen. injection Hlen as Hlen.
    pose proof (rates_nonempty _ _ Hlen) as Hrs.
    destruct Hinc as [Hpb Hinc]. inversion Hnn as [|? ? Hr Hnn']; subst.
    destruct (Qlt_le_dec b x) as [Hgt|Hle].
    + rewrite !tax_from_continue by (trivial; lra).
      apply IH; trivial; try lra.
    + rewrite (tax_from_stop x _ _ _ _ _ _ Hle Hinc).
      destruct (Qlt_le_dec b y) as [Hgty|Hley].
      * rewrite (tax_from_continue y _ _ _ _ _ _ Hgty Hrs).
        pose proof (tax_from_lower_bound y ths b (tax + (b - p) * r) rs
                      (Qlt_le_weak _ _ Hgty) Hinc Hnn' Hlen).
        nra.
      * rewrite (tax_from_stop y _ _ _ _ _ _ Hley Hinc). nra.
Qed.

(** ** The bracket engine: results *)

(** C1 (as amended): for every non-negative income and every bracket table
    with at least one threshold, thresholds strictly increasing and positive
    and one more rate than thresholds, [calculate_tax] returns the
    marginal-rate integral: the full widths of the brackets whose threshold
    is strictly below the income, plus the income above the greatest such
    threshold taxed at the rate of the bracket that contains it (the top
    rate above every threshold).  At income 0 the tax is 0, and up to the
    first threshold it is [income * rates[0]]. *)
Theorem calculate_tax_is_marginal_integral (income : Q) (ths rates : list Q) :
  0 <= income -> ths <> [] -> bracket_table ths rates ->
  exists tax,
    calculate_tax income ths rates = Ok tax
    /\ tax == marginal_integral income ths rates
    /\ (income == 0 -> tax == 0)
    /\ (income <= hd 0 ths -> tax == income * hd 0 rates).
Proof.
  intros Hpos Hne [Hinc Hlen].
  pose proof (rates_nonempty _ _ Hlen) as Hrs.
  exists (tax_value income ths rates).
  split; [apply calculate_tax_ok; assumption|].
  pose proof (tax_value_from income ths rates Hne Hrs) as Hv.
  assert (Hint : tax_value income ths rates == marginal_integral income ths rates).
  { rewrite Hv, (tax_from_integral income ths 0 0 rates (or_introl Hne) Hinc Hlen).
    unfold marginal_integral. ring. }
  split; [exact Hint|].
  destruct ths as [|b ths]; [congruence|]. destruct rates as [|r rs]; [congruence|].
  destruct Hinc as [Hb Hinc]. simpl hd.
  assert (Hfirst : income <= b -> tax_value income (b :: ths) (r :: rs) == income * r).
  { intros Hle. rewrite Hv, (tax_from_stop _ _ _ _ _ _ _ Hle Hinc). ring. }
  split; [|exact Hfirst].
  intros H0. rewrite Hfirst by lra. rewrite H0. ring.
Qed.

Lemma calculate_tax_is_marginal_integral_witness :
  0 <= 60000 /\ FEDERAL_BRACKETS <> []
  /\ bracket_table FEDERAL_BRACKETS FEDERAL_RATES
  /\ exists tax,
       calculate_tax 60000 FEDERAL_BRACKETS FEDERAL_RATES = Ok tax
       /\ tax == marginal_integral 60000 FEDERAL_BRACKETS FEDERAL_RATES
       /\ (60000 == 0 -> tax == 0)
       /\ (60000 <= hd 0 FEDERAL_BRACKETS -> tax == 60000 * hd 0 FEDERAL_RATES).
Proof.
  assert (H1 : 0 <= 60000) by discriminate.
  assert (H2 : FEDERAL_BRACKETS <> []) by discriminate.
  assert (H3 : bracket_table FEDERAL_BRACKETS FEDERAL_RATES).
  { unfold bracket_table. simpl. repeat split. }
  split; [exact H1|]. split; [exact H2|]. split; [exact H3|].
  exact (calculate_tax_is_marginal_integral 60000 FEDERAL_BRACKETS FEDERAL_RATES
           H1 H2 H3).
Defined.

(** C1 as stated fails on the table with no threshold and the single rate
    0.15, which meets the invariant: [brackets[-1]] raises [IndexError], so
    the tax at income 0 is not 0 and not the integral. *)
Lemma calculate_tax_raises_without_threshold :
  bracket_table [] [0.15]
  /\ calculate_tax 0 [] [0.15] = Raise IndexError
  /\ ~ (exists tax, calculate_tax 0 [] [0.15] = Ok tax
                    /\ tax == marginal_integral 0 [] [0.15]).
Proof.
  split; [split; [exact I | reflexivity]|].
  split; [reflexivity|].
  intros [tax [H _]]. discriminate H.
Qed.

(** C2: on a table that meets the invariant, an income equal to a threshold
    [b] does not exceed it: the loop breaks at the position of [b], the test
    after the loop fails, and the tax is the full widths of the brackets
    below [b] plus the full width of the bracket that ends at [b] at its own
    rate; the brackets after [b] contribute nothing. *)
Theorem calculate_tax_at_threshold (pre : list Q) (b : Q) (post rates : list Q) :
  bracket_table (pre ++ b :: post) rates ->
  exists tax,
    calculate_tax b (pre ++ b :: post) rates = Ok tax
    /\ break_index b (combine (pre ++ b :: post) rates) = Some (List.length pre)
    /\ Qgtb b (last (pre ++ b :: post) 0) = false
    /\ tax = bracket_loop b 0 0 (combine (pre ++ [b]) rates)
    /\ tax == sumQ (map width_tax (slices_from 0 pre rates))
              + (b - last pre 0) * nth (List.length pre) rates 0.
Proof.
  intros [Hinc Hlen].
  destruct (walk_to_threshold b post pre 0 0 rates Hinc Hlen) as (E1 & E2 & E3).
  assert (Htop : Qgtb b (last (pre ++ b :: post) 0) = false).
  { apply Qgtb_false_intro, last_after, Hinc. }
  exists (bracket_loop b 0 0 (combine (pre ++ [b]) rates)).
  repeat split; trivial.
  - unfold calculate_tax. rewrite E1.
    destruct (pre ++ b :: post) as [|c l] eqn:El.
    + destruct pre; discriminate El.
    + unfold last_item. rewrite last_cons in Htop. rewrite Htop. reflexivity.
  - rewrite E3. ring.
Qed.

Lemma calculate_tax_at_threshold_witness :
  bracket_table ([50197] ++ 100392 :: [155625; 221708]) FEDERAL_RATES
  /\ exists tax,
    calculate_tax 100392 ([50197] ++ 100392 :: [155625; 221708]) FEDERAL_RATES = Ok tax
    /\ break_index 100392 (combine ([50197] ++ 100392 :: [155625; 221708]) FEDERAL_RATES)
       = Some (List.length [50197])
    /\ Qgtb 100392 (last ([50197] ++ 100392 :: [155625; 221708]) 0) = false
    /\ tax = bracket_loop 100392 0 0 (combine ([50197] ++ [100392]) FEDERAL_RATES)
    /\ tax == sumQ (map width_tax (slices_from 0 [50197] FEDERAL_RATES))
              + (100392 - last [50197] 0) * nth (List.length [50197]) FEDERAL_RATES 0.
Proof.
  assert (H : bracket_table ([50197] ++ 100392 :: [155625; 221708]) FEDERAL_RATES).
  { unfold bracket_table. simpl. repeat split. }
  split; [exact H|].
  exact (calculate_tax_at_threshold [50197] 100392 [155625; 221708] FEDERAL_RATES H).
Defined.

(** C3 (as amended): on a table with at least one threshold that meets the
    invariant and has non-negative rates, [calculate_tax] returns a tax for
    every income and the tax does not decrease with the income. *)
Theorem calculate_tax_monotone (ths rates : list Q) (x y : Q) :
  ths <> [] -> bracket_table ths rates -> nonnegative rates ->
  0 <= x -> x <= y ->
  exists tx ty,
    calculate_tax x ths rates = Ok tx
    /\ calculate_tax y ths rates = Ok ty
    /\ tx <= ty.
Proof.
  intros Hne [Hinc Hlen] Hnn Hx Hxy.
  pose proof (rates_nonempty _ _ Hlen) as Hrs.
  exists (tax_value x ths rates), (tax_value y ths rates).
  split; [apply calculate_tax_ok; assumption|].
  split; [apply calculate_tax_ok; assumption|].
  rewrite !tax_value_from by assumption.
  apply tax_from_monotone; trivial. left. exact Hne.
Qed.

Lemma calculate_tax_monotone_witness :
  FEDERAL_BRACKETS <> []
  /\ bracket_table FEDERAL_BRACKETS FEDERAL_RATES
  /\ nonnegative FEDERAL_RATES
  /\ 0 <= 60000 /\ 60000 <= 250000
  /\ exists tx ty,
       calculate_tax 60000 FEDERAL_BRACKETS FEDERAL_RATES = Ok tx
       /\ calculate_tax 250000 FEDERAL_BRACKETS FEDERAL_RATES = Ok ty
       /\ tx <= ty.
Proof.
  assert (H1 : FEDERAL_BRACKETS <> []) by discriminate.
  assert (H2 : bracket_table FEDERAL_BRACKETS FEDERAL_RATES).
  { unfold bracket_table. simpl. repeat split. }
  assert (H3 : nonnegative FEDERAL_RATES) by (repeat constructor; discriminate).
  assert (H4 : 0 <= 60000) by discriminate.
  assert (H5 : 60000 <= 250000) by discriminate.
  split; [exact H1|]. split; [exact H2|]. split; [exact H3|].
  split; [exact H4|]. split; [exact H5|].
  exact (calculate_tax_monotone FEDERAL_BRACKETS FEDERAL_RATES 60000 250000
           H1 H2 H3 H4 H5).
Defined.

(** C3 as stated fails on the table with no threshold: it meets the
    invariant and its rate is non-negative, yet no income has a tax there,
    so there are no two taxes to compare. *)
Lemma no_tax_to_compare_without_threshold :
  bracket_table [] [0.15] /\ nonnegative [0.15] /\ 0 <= 0 /\ 0 <= 1
  /\ ~ (exists tx ty,
          calculate_tax 0 [] [0.15] = Ok tx
          /\ calculate_tax 1 [] [0.15] = Ok ty
          /\ tx <= ty).
Proof.
  split; [split; [exact I | reflexivity]|].
  split; [repeat constructor; discriminate|].
  split; [discriminate|]. split; [discriminate|].
  intros (tx & ty & H & _). discriminate H.
Qed.

(** ** The shipped tables *)

(** C8 (as amended): on the federal table the tax on 60000 is
    [50197 * 0.15 + (60000 - 50197) * 0.205 = 7529.55 + 2009.615 = 9539.165]. *)
Theorem federal_tax_on_60000 :
  exists tax,
    calculate_tax 60000 FEDERAL_BRACKETS FEDERAL_RATES = Ok tax
    /\ FEDERAL_BRACKETS = [50197; 100392; 155625; 221708]
    /\ FEDERAL_RATES = [0.15; 0.205; 0.26; 0.29; 0.33]
    /\ tax == 50197 * 0.15 + (60000 - 50197) * 0.205
    /\ 50197 * 0.15 == 7529.55
    /\ (60000 - 50197) * 0.205 == 2009.615
    /\ tax == 9539.165.
Proof.
  eexists. split; [reflexivity|]. repeat split; reflexivity.
Qed.

(** C8 as stated fails: the second term is 2009.615 and the tax 9539.165,
    each more than half a dollar away from the 2010.37 and 9539.92 of the
    claim. *)
Lemma federal_60000_is_not_9539_92 :
  ~ (exists tax,
       calculate_tax 60000 FEDERAL_BRACKETS FEDERAL_RATES = Ok tax
       /\ Qabs (tax - 9539.92) <= 0.5)
  /\ ~ Qabs ((60000 - 50197) * 0.205 - 2010.37) <= 0.5.
Proof.
  split.
  - intros (tax & H & Habs). vm_compute in H. injection H as <-.
    vm_compute in Habs. apply Habs. reflexivity.
  - intros Habs. vm_compute in Habs. apply Habs. reflexivity.
Qed.

(** Rewrites the tests of the walk on an income placed by the hypotheses. *)
Ltac decide_tests :=
  repeat match goal with
         | |- context [Qgtb ?x ?b] =>
             first [ rewrite (Qgtb_true_intro x b) by lra
                   | rewrite (Qgtb_false_intro x b) by lra ]
         end.

(** Between the last threshold and the one before it the loop breaks at
    113785 and the test after the loop succeeds as well. *)
Lemma quebec_walk_between (x : Q) :
  108390 < x -> x <= 113785 ->
  calculate_tax x (brackets QUEBEC) (rates QUEBEC)
  = Ok (0 + (46295 - 0) * 0.15 + (92595 - 46295) * 0.20 + (x - 92595) * 0.24
        + (x - 108390) * 0.2575)
  /\ break_index x (combine (brackets QUEBEC) (rates QUEBEC)) = Some 2%nat.
Proof.
  intros Hlo Hhi. unfold calculate_tax.
  cbn [QUEBEC brackets rates combine bracket_loop break_index last_item last].
  decide_tests. split; reflexivity.
Qed.

(** Above 113785 the loop runs to its end, through the misplaced threshold. *)
Lemma quebec_walk_above (y : Q) :
  113785 < y ->
  calculate_tax y (brackets QUEBEC) (rates QUEBEC)
  = Ok (0 + (46295 - 0) * 0.15 + (92595 - 46295) * 0.20 + (113785 - 92595) * 0.24
        + (108390 - 113785) * 0.2575 + (y - 108390) * 0.2575)
  /\ break_index y (combine (brackets QUEBEC) (rates QUEBEC)) = None.
Proof.
  intros Hlo. unfold calculate_tax.
  cbn [QUEBEC brackets rates combine bracket_loop break_index last_item last].
  decide_tests. split; reflexivity.
Qed.

(** C10: on the Quebec table as shipped, four thresholds that do not
    increase with four rates, [calculate_tax] is not monotone.  For every
    income strictly between 108390 and 113785 the loop breaks at the 113785
    threshold and the amount above 108390 is taxed again after the loop;
    for every income above 113785 the loop runs to its end and only the
    amount above 113785 is taxed at the last rate.  So 113000 pays more
    than 113786. *)
Theorem quebec_tax_not_monotone :
  getitem PROVINCIAL_TAX_INFO "Quebec" = Ok QUEBEC
  /\ brackets QUEBEC = [46295; 92595; 113785; 108390]
  /\ rates QUEBEC = [0.15; 0.20; 0.24; 0.2575]
  /\ bracket_table_ok (brackets QUEBEC) (rates QUEBEC) = false
  /\ (forall x, 108390 < x -> x < 113785 ->
        exists tx,
          calculate_tax x (brackets QUEBEC) (rates QUEBEC) = Ok tx
          /\ break_index x (combine (brackets QUEBEC) (rates QUEBEC)) = Some 2%nat
          /\ Qgtb x (last (brackets QUEBEC) 0) = true
          /\ tx == 46295 * 0.15 + (92595 - 46295) * 0.20 + (x - 92595) * 0.24
                   + (x - 108390) * 0.2575)
  /\ (forall y, 113785 < y ->
        exists ty,
          calculate_tax y (brackets QUEBEC) (rates QUEBEC) = Ok ty
          /\ break_index y (combine (brackets QUEBEC) (rates QUEBEC)) = None
          /\ ty == 46295 * 0.15 + (92595 - 46295) * 0.20 + (113785 - 92595) * 0.24
                   + (y - 113785) * 0.2575)
  /\ exists x y tx ty,
       108390 < x /\ x < 113785 /\ 113785 < y /\ x < y
       /\ calculate_tax x (brackets QUEBEC) (rates QUEBEC) = Ok tx
       /\ calculate_tax y (brackets QUEBEC) (rates QUEBEC) = Ok ty
       /\ ty < tx
       /\ break_index x (combine (brackets QUEBEC) (rates QUEBEC)) = Some 2%nat
       /\ tx == 46295 * 0.15 + (92595 - 46295) * 0.20 + (x - 92595) * 0.24
                + (x - 108390) * 0.2575
       /\ break_index y (combine (brackets QUEBEC) (rates QUEBEC)) = None
       /\ ty == 46295 * 0.15 + (92595 - 46295) * 0.20 + (113785 - 92595) * 0.24
                + (y - 113785) * 0.2575.
Proof.
  split; [reflexivity|]. split; [reflexivity|]. split; [reflexivity|].
  split; [reflexivity|].
  split.
  { intros x Hlo Hhi.
    destruct (quebec_walk_between x Hlo (Qlt_le_weak _ _ Hhi)) as [E B].
    eexists. split; [exact E|]. split; [exact B|].
    split; [apply Qgtb_true_intro; exact Hlo | ring]. }
  split.
  { intros y Hlo. destruct (quebec_walk_above y Hlo) as [E B].
    eexists. split; [exact E|]. split; [exact B | ring]. }
  assert (Hx1 : 108390 < 113000) by reflexivity.
  assert (Hx2 : 113000 <= 113785) by discriminate.
  assert (Hy : 113785 < 113786) by reflexivity.
  destruct (quebec_walk_between 113000 Hx1 Hx2) as [Ex Bx].
  destruct (quebec_walk_above 113786 Hy) as [Ey By].
  eexists 113000, 113786, _, _.
  split; [reflexivity|]. split; [reflexivity|]. split; [reflexivity|].
  split; [reflexivity|].
  split; [exact Ex|]. split; [exact Ey|].
  split; [reflexivity|]. split; [exact Bx|]. split; [ring|].
  split; [exact By|]. ring.
Qed.

Lemma quebec_tax_not_monotone_witness :
  108390 < 113000 /\ 113000 < 113785
  /\ exists tx,
       calculate_tax 113000 (brackets QUEBEC) (rates QUEBEC) = Ok tx
       /\ break_index 113000 (combine (brackets QUEBEC) (rates QUEBEC)) = Some 2%nat
       /\ Qgtb 113000 (last (brackets QUEBEC) 0) = true
       /\ tx == 46295 * 0.15 + (92595 - 46295) * 0.20 + (113000 - 92595) * 0.24
                + (113000 - 108390) * 0.2575.
Proof.
  assert (H1 : 108390 < 113000) by reflexivity.
  assert (H2 : 113000 < 113785) by reflexivity.
  split; [exact H1|]. split; [exact H2|].
  destruct quebec_tax_not_monotone as (_ & _ & _ & _ & Hbetween & _).
  exact (Hbetween 113000 H1 H2).
Defined.

(** C4, evaluated on the shipped data: the federal table and twelve of the
    thirteen registered tables meet the invariant; the Quebec table does
    not: its last threshold 108390 is below 113785, and it has four rates
    for four thresholds. *)
Theorem quebec_table_violates_invariant :
  bracket_table FEDERAL_BRACKETS FEDERAL_RATES
  /\ List.length PROVINCIAL_TAX_INFO = 13%nat
  /\ map fst (filter (fun e => negb (bracket_table_ok (brackets (snd e)) (rates (snd e))))
                     PROVINCIAL_TAX_INFO)
     = ["Quebec"%string]
  /\ getitem PROVINCIAL_TAX_INFO "Quebec" = Ok QUEBEC
  /\ ~ bracket_table (brackets QUEBEC) (rates QUEBEC)
  /\ ~ increasing_from 0 (brackets QUEBEC)
  /\ List.length (rates QUEBEC) = List.length (brackets QUEBEC).
Proof.
  split; [apply bracket_table_ok_spec; reflexivity|].
  split; [reflexivity|]. split; [reflexivity|]. split; [reflexivity|].
  split; [|split; [|reflexivity]].
  - intros H. apply bracket_table_ok_spec in H. discriminate H.
  - intros H. apply increasing_fromb_spec in H. discriminate H.
Qed.

(** ** Contributions *)

(** C5: for every income >= 0 the CPP contribution is
    [min (income * 0.0525) 3500] and the EI contribution
    [min (income * 0.0158) 889.54]; neither exceeds its cap, and at an
    income of 1,000,000 they are exactly 3500 and 889.54. *)
Theorem contributions_are_capped (income : Q) :
  0 <= income ->
  cpp_contribution income == Qmin (income * 0.0525) 3500
  /\ ei_contribution income == Qmin (income * 0.0158) 889.54
  /\ cpp_contribution income <= 3500
  /\ ei_contribution income <= 889.54
  /\ cpp_contribution 1000000 = 3500
  /\ ei_contribution 1000000 = 889.54.
Proof.
  intros _. unfold cpp_contribution, ei_contribution, CPP_RATE, CPP_MAX, EI_RATE, EI_MAX.
  split; [|split; [|split; [|split; [|split; reflexivity]]]].
  - split_lt (income * 0.0525) 3500.
    + symmetry. apply Q.min_l. lra.
    + symmetry. apply Q.min_r. lra.
  - split_lt (income * 0.0158) 889.54.
    + symmetry. apply Q.min_l. lra.
    + symmetry. apply Q.min_r. lra.
  - split_lt (income * 0.0525) 3500; lra.
  - split_lt (income * 0.0158) 889.54; lra.
Qed.

Lemma contributions_are_capped_witness :
  0 <= 1000000
  /\ cpp_contribution 1000000 == Qmin (1000000 * 0.0525) 3500
  /\ ei_contribution 1000000 == Qmin (1000000 * 0.0158) 889.54
  /\ cpp_contribution 1000000 <= 3500
  /\ ei_contribution 1000000 <= 889.54
  /\ cpp_contribution 1000000 = 3500
  /\ ei_contribution 1000000 = 889.54.
Proof.
  assert (H : 0 <= 1000000) by discriminate.
  split; [exact H|]. exact (contributions_are_capped 1000000 H).
Defined.

(** ** The registry as a dict *)

Lemma getitem_missing {V : Type} (d : list (string * V)) (key : string) :
  ~ In key (map fst d) -> getitem d key = Raise (KeyError key).
Proof.
  induction d as [|[k v] d IH]; simpl; intros H; [reflexivity|].
  destruct (String.eqb_spec k key) as [E|_]; [tauto|].
  apply IH. tauto.
Qed.

Lemma getitem_present {V : Type} (d : list (string * V)) (key : string) :
  In key (map fst d) -> exists v, getitem d key = Ok v.
Proof.
  induction d as [|[k v] d IH]; simpl; intros H; [contradiction|].
  destruct (String.eqb_spec k key) as [E|N].
  - exists v. reflexivity.
  - destruct H as [H|H]; [contradiction|]. apply IH, H.
Qed.

Lemma getitem_In {V : Type} (d : list (string * V)) (key : string) (v : V) :
  getitem d key = Ok v -> In (key, v) d.
Proof.
  induction d as [|[k w] d IH]; simpl; intros H; [discriminate|].
  destruct (String.eqb_spec k key) as [E|N].
  - left. congruence.
  - right. apply IH, H.
Qed.

Lemma getitem_of_In {V : Type} (d : list (string * V)) (key : string) (v : V) :
  NoDup (map fst d) -> In (key, v) d -> getitem d key = Ok v.
Proof.
  induction d as [|[k w] d IH]; simpl; intros Hnd H; [contradiction|].
  inversion Hnd as [|? ? Hk Hnd']; subst.
  destruct (String.eqb_spec k key) as [E|N].
  - destruct H as [H|H]; [congruence|].
    exfalso. apply Hk. subst k. apply (in_map fst) in H. exact H.
  - destruct H as [H|H]; [congruence|]. apply IH; assumption.
Qed.

Lemma registry_names :
  map fst PROVINCIAL_TAX_INFO
  = ["Alberta"; "British Columbia"; "Manitoba"; "New Brunswick";
     "Newfoundland and Labrador"; "Northwest Territories"; "Nova Scotia";
     "Nunavut"; "Ontario"; "Prince Edward Island"; "Quebec"; "Saskatchewan";
     "Yukon"]%string.
Proof. reflexivity. Qed.

Lemma registry_names_ascending :
  StronglySorted name_lt (map fst PROVINCIAL_TAX_INFO).
Proof.
  rewrite registry_names.
  repeat (constructor; [|repeat constructor; reflexivity]). constructor.
Qed.

Lemma name_lt_irrefl (a : string) : ~ name_lt a a.
Proof.
  unfold name_lt. intros H.
  pose proof (String.compare_antisym a a) as E. rewrite H in E. discriminate E.
Qed.

Lemma ascending_NoDup (names : list string) :
  StronglySorted name_lt names -> NoDup names.
Proof.
  induction 1 as [|a l _ IH Hall]; constructor; [|exact IH].
  intros Hin. rewrite Forall_forall in Hall.
  exact (name_lt_irrefl a (Hall a Hin)).
Qed.

Lemma registry_tables_nonempty :
  Forall (fun e : string * TaxInfo => brackets (snd e) <> [] /\ rates (snd e) <> [])
         PROVINCIAL_TAX_INFO.
Proof. repeat constructor; discriminate. Qed.

(** ** Sorting rows by name *)

Section SortByName.
Context {V W : Type} (g : string * V -> W).

(** A change of the value column that keeps the names. *)
Let rename (r : string * V) : string * W := (fst r, g r).

Lemma insert_row_map (r : string * V) (rows : list (string * V)) :
  insert_row (rename r) (map rename rows) = map rename (insert_row r rows).
Proof.
  induction rows as [|r' rows IH]; [reflexivity|].
  simpl. destruct (String.leb (fst r) (fst r')); simpl; [reflexivity|].
  f_equal. exact IH.
Qed.

Lemma sort_values_map (rows : list (string * V)) :
  sort_values (map rename rows) = map rename (sort_values rows).
Proof.
  induction rows as [|r rows IH]; [reflexivity|].
  simpl. rewrite IH. apply insert_row_map.
Qed.
End SortByName.

Lemma sort_values_scale (m : Q) (rows : list (string * Q)) :
  sort_values (scale_rows m rows) = scale_rows m (sort_values rows).
Proof. exact (sort_values_map (fun r => snd r * m) rows). Qed.

Lemma insert_row_perm {V : Type} (r : string * V) (rows : list (string * V)) :
  Permutation (insert_row r rows) (r :: rows).
Proof.
  induction rows as [|r' rows IH]; simpl; [reflexivity|].
  destruct (String.leb (fst r) (fst r')); [reflexivity|].
  rewrite IH. apply perm_swap.
Qed.

Lemma sort_values_perm {V : Type} (rows : list (string * V)) :
  Permutation (sort_values rows) rows.
Proof.
  induction rows as [|r rows IH]; simpl; [reflexivity|].
  rewrite insert_row_perm. constructor. exact IH.
Qed.

(** The registry is written in ascending order of its keys. *)
Lemma registry_already_sorted :
  sort_values PROVINCIAL_TAX_INFO = PROVINCIAL_TAX_INFO.
Proof. vm_compute. reflexivity. Qed.

Lemma sort_values_comparison_nets (income federal_tax cpp ei : Q) :
  sort_values (comparison_nets income federal_tax cpp ei PROVINCIAL_TAX_INFO)
  = comparison_nets income federal_tax cpp ei PROVINCIAL_TAX_INFO.
Proof.
  unfold comparison_nets.
  rewrite (sort_values_map
             (fun e : string * TaxInfo =>
                income - (federal_tax
                          + tax_value income (brackets (snd e)) (rates (snd e))
                          + cpp + ei))).
  rewrite registry_already_sorted. reflexivity.
Qed.

(** ** The comparison loop *)

Lemma comparison_loop_rows (income federal_tax cpp ei m : Q)
    (items : list (string * TaxInfo)) :
  Forall (fun e : string * TaxInfo => brackets (snd e) <> [] /\ rates (snd e) <> [])
         items ->
  forall results,
    comparison_loop income federal_tax cpp ei m items results
    = Ok (results ++ scale_rows m (comparison_nets income federal_tax cpp ei items)).
Proof.
  induction 1 as [|[prov info] items [Hb Hr] _ IH]; intros results; simpl.
  - rewrite app_nil_r. reflexivity.
  - simpl in Hb, Hr. rewrite (calculate_tax_ok income _ _ Hb Hr).
    rewrite IH, <- app_assoc. reflexivity.
Qed.

(** ** What the button press produces *)

Lemma run_unknown (ui : Inputs) (e : PyError) :
  getitem PROVINCIAL_TAX_INFO (province ui) = Raise e ->
  run ui = ([], Raise e).
Proof.
  intros H. unfold run, calculate_taxes, bind, lift. rewrite H. reflexivity.
Qed.

Lemma run_known (ui : Inputs) (info : TaxInfo) :
  getitem PROVINCIAL_TAX_INFO (province ui) = Ok info ->
  let income := annual_income ui in
  let federal_tax := tax_value income FEDERAL_BRACKETS FEDERAL_RATES in
  let provincial_tax := tax_value income (brackets info) (rates info) in
  run ui
  = (shown_lines ui federal_tax provincial_tax
     ++ [ComparisonTable
           (scale_rows (multiplier (output_frequency ui))
              (comparison_nets income federal_tax (cpp_contribution income)
                 (ei_contribution income) PROVINCIAL_TAX_INFO))],
     Ok tt).
Proof.
  intros Hget income federal_tax provincial_tax.
  pose proof (getitem_In _ _ _ Hget) as Hin.
  pose proof registry_tables_nonempty as Hall.
  rewrite Forall_forall in Hall. destruct (Hall _ Hin) as [Hb Hr]. simpl in Hb, Hr.
  unfold run, calculate_taxes, bind, lift. rewrite Hget.
  cbv beta iota zeta. unfold map_result. fold income.
  rewrite (calculate_tax_ok income FEDERAL_BRACKETS FEDERAL_RATES)
    by discriminate.
  rewrite (calculate_tax_ok income _ _ Hb Hr).
  rewrite (comparison_loop_rows _ _ _ _ _ _ registry_tables_nonempty).
  fold federal_tax provincial_tax.
  rewrite app_nil_l, sort_values_scale, sort_values_comparison_nets.
  unfold shown_lines, when, write, ret, multiplier. fold income.
  destruct (show_federal_tax ui), (show_prov_tax ui), (show_cpp ui), (show_ei ui);
    reflexivity.
Qed.

(** ** The page: results *)

(** C9: when the selected province is not a key of the registry, the
    lookup raises [KeyError] carrying that name (the UnknownJurisdiction
    failure) before anything is written: the page shows no tax, no
    contribution, no net income and no comparison table. *)
Theorem unknown_province_raises (ui : Inputs) :
  ~ In (province ui) (map fst PROVINCIAL_TAX_INFO) ->
  run ui = ([], Raise (KeyError (province ui)))
  /\ displayed_amounts (fst (run ui)) = []
  /\ KeyError (province ui) <> IndexError.
Proof.
  intros H. rewrite (run_unknown ui _ (getitem_missing _ _ H)).
  repeat split. discriminate.
Qed.

Lemma unknown_province_raises_witness :
  let ui := mkInputs "Atlantis" AnnualInput 60000 Yearly true true true true in
  ~ In (province ui) (map fst PROVINCIAL_TAX_INFO)
  /\ run ui = ([], Raise (KeyError (province ui)))
  /\ displayed_amounts (fst (run ui)) = []
  /\ KeyError (province ui) <> IndexError.
Proof.
  intros ui.
  assert (H : ~ In (province ui) (map fst PROVINCIAL_TAX_INFO)).
  { simpl. intuition discriminate. }
  split; [exact H|]. exact (unknown_province_raises ui H).
Defined.

Lemma Forall2_map_same {A B : Type} (R : B -> B -> Prop) (f g : A -> B) (l : list A) :
  (forall a, R (f a) (g a)) -> Forall2 R (map f l) (map g l).
Proof. intros H. induction l; simpl; constructor; auto. Qed.

Lemma displayed_lines (ui : Inputs) (federal_tax provincial_tax : Q) :
  displayed_amounts (shown_lines ui federal_tax provincial_tax)
  = map (fun a => a * multiplier (output_frequency ui))
        (annual_lines ui federal_tax provincial_tax).
Proof.
  unfold shown_lines, annual_lines, displayed_amounts.
  destruct (show_federal_tax ui), (show_prov_tax ui), (show_cpp ui), (show_ei ui);
    reflexivity.
Qed.

Lemma rescaled_lines (k : Q) (ui ui' : Inputs) (federal_tax provincial_tax : Q) :
  province ui' = province ui -> annual_income ui' = annual_income ui ->
  show_federal_tax ui' = show_federal_tax ui -> show_prov_tax ui' = show_prov_tax ui ->
  show_cpp ui' = show_cpp ui -> show_ei ui' = show_ei ui ->
  multiplier (output_frequency ui') == multiplier (output_frequency ui) / k ->
  Forall2 (rescaled k) (shown_lines ui federal_tax provincial_tax)
                       (shown_lines ui' federal_tax provincial_tax).
Proof.
  intros Ep Ei E1 E2 E3 E4 Hm. unfold shown_lines.
  rewrite Ep, Ei, E1, E2, E3, E4.
  assert (Hs : forall a, a * multiplier (output_frequency ui')
                         == a * multiplier (output_frequency ui) / k).
  { intros a. rewrite Hm. unfold Qdiv. ring. }
  destruct (show_federal_tax ui), (show_prov_tax ui), (show_cpp ui), (show_ei ui);
    simpl; repeat constructor; simpl; auto.
Qed.

Lemma rescaled_rows (k m m' : Q) (rows : list (string * Q)) :
  m' == m / k ->
  Forall2 (fun r r' => fst r = fst r' /\ snd r' == snd r / k)
          (scale_rows m rows) (scale_rows m' rows).
Proof.
  intros Hm. unfold scale_rows. apply Forall2_map_same.
  intros r. simpl. split; [reflexivity|]. rewrite Hm. unfold Qdiv. ring.
Qed.

(** C6: the multiplier depends on the output frequency alone (1, 1/12,
    1/26); every amount on the page (federal tax, provincial tax, both
    contributions, net income and the net income of every row of the
    table) is the annual amount, the same for the three frequencies,
    times that multiplier; so the Monthly page shows
    the Yearly page with every amount divided by 12 and the Biweekly page
    shows it with every amount divided by 26, line by line and row by row. *)
Theorem frequency_conversion_is_linear
    (prov : string) (ty : IncomeType) (entered : Q) (sf sp sc se : bool) :
  let page f := fst (run (mkInputs prov ty entered f sf sp sc se)) in
  multiplier Yearly == 1
  /\ multiplier Monthly == 1 / 12
  /\ multiplier Biweekly == 1 / 26
  /\ (forall f,
        displayed_amounts (page f)
        = map (fun a => a * multiplier f) (annual_amounts prov ty entered sf sp sc se))
  /\ Forall2 (rescaled 12) (page Yearly) (page Monthly)
  /\ Forall2 (rescaled 26) (page Yearly) (page Biweekly)
  /\ Forall2 (fun yearly monthly => monthly == yearly / 12)
             (displayed_amounts (page Yearly)) (displayed_amounts (page Monthly))
  /\ Forall2 (fun yearly biweekly => biweekly == yearly / 26)
             (displayed_amounts (page Yearly)) (displayed_amounts (page Biweekly)).
Proof.
  intros page.
  split; [reflexivity|]. split; [reflexivity|]. split; [reflexivity|].
  assert (Hscale : forall k f, multiplier f == multiplier Yearly / k ->
            forall a, a * multiplier f == a * multiplier Yearly / k).
  { intros k f Hm a. rewrite Hm. unfold Qdiv. ring. }
  destruct (getitem PROVINCIAL_TAX_INFO prov) as [info|e] eqn:Hget.
  - set (ui f := mkInputs prov ty entered f sf sp sc se).
    set (income := annual_income (ui Yearly)).
    set (fed := tax_value income FEDERAL_BRACKETS FEDERAL_RATES).
    set (ptax := tax_value income (brackets info) (rates info)).
    set (nets := comparison_nets income fed (cpp_contribution income)
                   (ei_contribution income) PROVINCIAL_TAX_INFO).
    assert (Hpage : forall f,
               page f = shown_lines (ui f) fed ptax
                        ++ [ComparisonTable (scale_rows (multiplier f) nets)]).
    { intros f. unfold page. fold (ui f). rewrite (run_known (ui f) info Hget).
      reflexivity. }
    assert (Hamounts : forall f,
               displayed_amounts (page f)
               = map (fun a => a * multiplier f)
                     (annual_amounts prov ty entered sf sp sc se)).
    { intros f. unfold annual_amounts. rewrite Hget.
      fold (ui Yearly). fold income. fold fed. fold ptax. fold nets.
      rewrite Hpage. unfold displayed_amounts.
      rewrite flat_map_app. fold (displayed_amounts (shown_lines (ui f) fed ptax)).
      rewrite displayed_lines, map_app.
      f_equal; simpl; rewrite ?app_nil_r; unfold scale_rows; rewrite ?map_map;
        reflexivity. }
    split; [exact Hamounts|].
    split; [|split; [|split]].
    + rewrite !Hpage. apply Forall2_app.
      * apply rescaled_lines; reflexivity.
      * apply Forall2_cons; [|apply Forall2_nil].
        cbn [rescaled]. apply rescaled_rows. reflexivity.
    + rewrite !Hpage. apply Forall2_app.
      * apply rescaled_lines; reflexivity.
      * apply Forall2_cons; [|apply Forall2_nil].
        cbn [rescaled]. apply rescaled_rows. reflexivity.
    + rewrite !Hamounts. apply Forall2_map_same. intros a.
      apply (Hscale 12 Monthly). reflexivity.
    + rewrite !Hamounts. apply Forall2_map_same. intros a.
      apply (Hscale 26 Biweekly). reflexivity.
  - assert (Hpage : forall f, page f = []).
    { intros f. unfold page.
      rewrite (run_unknown (mkInputs prov ty entered f sf sp sc se) e Hget).
      reflexivity. }
    split; [intros f; unfold annual_amounts; rewrite Hget, Hpage; reflexivity|].
    rewrite !Hpage. repeat split; constructor.
Qed.

Lemma table_names (m income federal_tax cpp ei : Q) (items : list (string * TaxInfo)) :
  map fst (scale_rows m (comparison_nets income federal_tax cpp ei items))
  = map fst items.
Proof.
  unfold scale_rows, comparison_nets. rewrite !map_map. reflexivity.
Qed.

Lemma table_row (m income federal_tax cpp ei : Q) (items : list (string * TaxInfo))
    (prov : string) (net : Q) :
  In (prov, net) (scale_rows m (comparison_nets income federal_tax cpp ei items))
  <-> exists info,
        In (prov, info) items
        /\ net = (income - (federal_tax
                            + tax_value income (brackets info) (rates info)
                            + cpp + ei)) * m.
Proof.
  unfold scale_rows, comparison_nets. rewrite map_map. simpl.
  rewrite in_map_iff. split.
  - intros [[p info] [E Hin]]. simpl in E. injection E as <- <-.
    exists info. split; [exact Hin | reflexivity].
  - intros [info [Hin ->]]. exists (prov, info). split; [reflexivity | exact Hin].
Qed.

(** C7: for every query on a registered province the page ends with one
    comparison table.  Its names are those of the registry, each once, in
    strictly ascending lexicographic order; the amount of each row is
    [(income - (federal_tax + that province's tax + cpp + ei)) * multiplier]
    with the federal tax and the two contributions of the primary result;
    and the row of the selected province carries the amount of the net
    income line. *)
Theorem comparison_table_complete (ui : Inputs) :
  In (province ui) (map fst PROVINCIAL_TAX_INFO) ->
  let income := annual_income ui in
  let f := output_frequency ui in
  exists lines table federal_tax primary_net,
    run ui = (lines ++ [ComparisonTable table], Ok tt)
    /\ Forall (fun s => forall rows, s <> ComparisonTable rows) lines
    /\ calculate_tax income FEDERAL_BRACKETS FEDERAL_RATES = Ok federal_tax
    /\ Permutation (map fst table) (map fst PROVINCIAL_TAX_INFO)
    /\ NoDup (map fst table)
    /\ StronglySorted name_lt (map fst table)
    /\ (forall prov net,
          In (prov, net) table ->
          exists info prov_tax,
            getitem PROVINCIAL_TAX_INFO prov = Ok info
            /\ calculate_tax income (brackets info) (rates info) = Ok prov_tax
            /\ net = (income - (federal_tax + prov_tax
                                + cpp_contribution income + ei_contribution income))
                     * multiplier f)
    /\ (show_federal_tax ui = true ->
        In (FederalTaxLine f (federal_tax * multiplier f)) lines)
    /\ (show_cpp ui = true ->
        In (CPPLine f (cpp_contribution income * multiplier f)) lines)
    /\ (show_ei ui = true ->
        In (EILine f (ei_contribution income * multiplier f)) lines)
    /\ In (NetIncomeLine f (province ui) primary_net) lines
    /\ In (province ui, primary_net) table.
Proof.
  intros Hreg income f.
  destruct (getitem_present _ _ Hreg) as [info Hget].
  pose proof (getitem_In _ _ _ Hget) as Hin.
  pose proof registry_tables_nonempty as Hall. rewrite Forall_forall in Hall.
  pose proof (ascending_NoDup _ registry_names_ascending) as Hnd.
  set (fed := tax_value income FEDERAL_BRACKETS FEDERAL_RATES).
  set (ptax := tax_value income (brackets info) (rates info)).
  set (cpp := cpp_contribution income). set (ei := ei_contribution income).
  exists (shown_lines ui fed ptax),
         (scale_rows (multiplier f) (comparison_nets income fed cpp ei PROVINCIAL_TAX_INFO)),
         fed, ((income - (fed + ptax + cpp + ei)) * multiplier f).
  split; [exact (run_known ui info Hget)|].
  split.
  { unfold shown_lines.
    destruct (show_federal_tax ui), (show_prov_tax ui), (show_cpp ui), (show_ei ui);
      simpl; repeat constructor; discriminate. }
  split; [apply calculate_tax_ok; discriminate|].
  rewrite table_names.
  split; [reflexivity|]. split; [exact Hnd|].
  split; [exact registry_names_ascending|].
  split.
  { intros prov net Hrow. apply table_row in Hrow. destruct Hrow as [i [Hi ->]].
    destruct (Hall _ Hi) as [Hb Hr]. simpl in Hb, Hr.
    exists i, (tax_value income (brackets i) (rates i)).
    split; [apply getitem_of_In; assumption|].
    split; [apply calculate_tax_ok; assumption | reflexivity]. }
  unfold shown_lines. fold income f fed ptax cpp ei.
  split; [intros ->; simpl; auto|].
  split; [intros ->; apply in_or_app; right; apply in_or_app; right;
          apply in_or_app; left; left; reflexivity|].
  split; [intros ->; do 3 (apply in_or_app; right); apply in_or_app; left; left;
          reflexivity|].
  split.
  - do 4 (apply in_or_app; right). left. reflexivity.
  - apply table_row. exists info. split; [exact Hin | reflexivity].
Qed.

Lemma comparison_table_complete_witness :
  let ui := mkInputs "Ontario" MonthlyInput 5000 Biweekly true false true true in
  In (province ui) (map fst PROVINCIAL_TAX_INFO)
  /\ exists lines table federal_tax primary_net,
       run ui = (lines ++ [ComparisonTable table], Ok tt)
       /\ Forall (fun s => forall rows, s <> ComparisonTable rows) lines
       /\ calculate_tax (annual_income ui) FEDERAL_BRACKETS FEDERAL_RATES = Ok federal_tax
       /\ Permutation (map fst table) (map fst PROVINCIAL_TAX_INFO)
       /\ NoDup (map fst table)
       /\ StronglySorted name_lt (map fst table)
       /\ (forall prov net,
             In (prov, net) table ->
             exists info prov_tax,
               getitem PROVINCIAL_TAX_INFO prov = Ok info
               /\ calculate_tax (annual_income ui) (brackets info) (rates info)
                  = Ok prov_tax
               /\ net = (annual_income ui
                         - (federal_tax + prov_tax
                            + cpp_contribution (annual_income ui)
                            + ei_contribution (annual_income ui)))
                        * multiplier (output_frequency ui))
       /\ (show_federal_tax ui = true ->
           In (FederalTaxLine (output_frequency ui)
                 (federal_tax * multiplier (output_frequency ui))) lines)
       /\ (show_cpp ui = true ->
           In (CPPLine (output_frequency ui)
                 (cpp_contribution (annual_income ui) * multiplier (output_frequency ui)))
              lines)
       /\ (show_ei ui = true ->
           In (EILine (output_frequency ui)
                 (ei_contribution (annual_income ui) * multiplier (output_frequency ui)))
              lines)
       /\ In (NetIncomeLine (output_frequency ui) (province ui) primary_net) lines
       /\ In (province ui, primary_net) table.
Proof.
  intros ui.
  assert (H : In (province ui) (map fst PROVINCIAL_TAX_INFO)).
  { simpl. do 8 right. left. reflexivity. }
  split; [exact H|]. exact (comparison_table_complete ui H).
Defined.

(** ** The bracket engine: errors and malformed tables *)

(** X1: [calculate_tax] raises exactly when there is no threshold, or when
    there is no rate and the income is above the last threshold; the
    exception is then [IndexError], never [KeyError]. *)
Theorem calculate_tax_raises_iff (income : Q) (ths rates : list Q) :
  (calculate_tax income ths rates = Raise IndexError
   <-> ths = [] \/ (rates = [] /\ last ths 0 < income))
  /\ (forall key, calculate_tax income ths rates <> Raise (KeyError key))
  /\ ((exists tax, calculate_tax income ths rates = Ok tax)
      <-> ths <> [] /\ (rates <> [] \/ income <= last ths 0)).
Proof.
  unfold calculate_tax.
  destruct ths as [|b ths].
  { simpl. split; [tauto|]. split; [discriminate|].
    split; [intros [t H]; discriminate H | intros [H _]; congruence]. }
  unfold last_item. rewrite (last_cons ths b 0).
  split_gt income (last ths b); destruct rates as [|r rs].
  - split; [split; [intros _; right; split; [reflexivity | exact Hcmp] | reflexivity]|].
    split; [discriminate|].
    split; [intros [t H]; discriminate H|].
    intros [_ [H|H]]; [congruence | lra].
  - split; [split; [discriminate|]|].
    + intros [H|[H _]]; discriminate H.
    + split; [discriminate|].
      split; [intros _; split; [discriminate | left; discriminate]|].
      intros _. eexists. reflexivity.
  - split; [split; [discriminate|]|].
    + intros [H|[_ H]]; [discriminate H | lra].
    + split; [discriminate|].
      split; [intros _; split; [discriminate | right; exact Hcmp]|].
      intros _. eexists. reflexivity.
  - split; [split; [discriminate|]|].
    + intros [H|[H _]]; discriminate H.
    + split; [discriminate|].
      split; [intros _; split; [discriminate | left; discriminate]|].
      intros _. eexists. reflexivity.
Qed.

Lemma combine_firstn_rates (ths : list Q) :
  forall rates : list Q,
    combine ths (firstn (List.length ths) rates) = combine ths rates.
Proof.
  induction ths as [|b ths IH]; intros rates; [reflexivity|].
  destruct rates as [|r rs]; [reflexivity|].
  simpl. f_equal. apply IH.
Qed.

(** X2: the lengths of the two sequences are never compared: the result
    depends on the rates only through the first [len(brackets)] of them
    (the [zip]) and the last one ([rates[-1]]); any rate in between is
    ignored. *)
Theorem calculate_tax_reads_first_and_last_rates
    (income : Q) (ths rates rates' : list Q) :
  firstn (List.length ths) rates = firstn (List.length ths) rates' ->
  last_item rates = last_item rates' ->
  calculate_tax income ths rates = calculate_tax income ths rates'.
Proof.
  intros Hfirst Hlast. unfold calculate_tax.
  rewrite <- (combine_firstn_rates ths rates), Hfirst, combine_firstn_rates, Hlast.
  reflexivity.
Qed.

Lemma calculate_tax_reads_first_and_last_rates_witness :
  let rates' := [0.15; 0.205; 0.26; 0.29; 0.99; 0.5; 0.33] in
  firstn (List.length FEDERAL_BRACKETS) FEDERAL_RATES
  = firstn (List.length FEDERAL_BRACKETS) rates'
  /\ last_item FEDERAL_RATES = last_item rates'
  /\ calculate_tax 250000 FEDERAL_BRACKETS FEDERAL_RATES
     = calculate_tax 250000 FEDERAL_BRACKETS rates'.
Proof.
  intros rates'.
  assert (H1 : firstn (List.length FEDERAL_BRACKETS) FEDERAL_RATES
               = firstn (List.length FEDERAL_BRACKETS) rates') by reflexivity.
  assert (H2 : last_item FEDERAL_RATES = last_item rates') by reflexivity.
  split; [exact H1|]. split; [exact H2|].
  exact (calculate_tax_reads_first_and_last_rates 250000 FEDERAL_BRACKETS
           FEDERAL_RATES rates' H1 H2).
Defined.

(** ** The bracket engine: how fast the tax grows *)

Lemma rates_within_nonnegative (R : Q) (rates : list Q) :
  rates_within R rates -> nonnegative rates.
Proof.
  intros H. eapply Forall_impl; [|exact H]. simpl. intros r [Hr _]. exact Hr.
Qed.

Lemma last_within (R : Q) (rates : list Q) :
  0 <= R -> rates_within R rates -> 0 <= last rates 0 /\ last rates 0 <= R.
Proof.
  intros HR. induction 1 as [|r rs Hr _ IH]; simpl; [lra|].
  destruct rs; [exact Hr | exact IH].
Qed.

Lemma tax_from_upper_bound (R income : Q) (ths : list Q) :
  forall p tax rates,
    0 <= R -> p <= income -> increasing_from p ths -> rates_within R rates ->
    List.length rates = S (List.length ths) ->
    tax_from income tax p ths rates <= tax + R * (income - p).
Proof.
  induction ths as [|b ths IH]; intros p tax rates HR Hp Hinc Hw Hlen.
  - pose proof (last_within _ _ HR Hw) as [Hl0 HlR].
    unfold tax_from, residual. simpl.
    split_gt income p; nra.
  - destruct rates as [|r rs]; [discriminate|].
    simpl in Hlen. injection Hlen as Hlen.
    pose proof (rates_nonempty _ _ Hlen) as Hrs.
    destruct Hinc as [Hpb Hinc]. inversion Hw as [|? ? [Hr0 HrR] Hw']; subst.
    destruct (Qlt_le_dec b income) as [Hgt|Hle].
    + rewrite (tax_from_continue _ _ _ _ _ _ _ Hgt Hrs).
      specialize (IH b (tax + (b - p) * r) rs HR (Qlt_le_weak _ _ Hgt) Hinc Hw' Hlen).
      nra.
    + rewrite (tax_from_stop _ _ _ _ _ _ _ Hle Hinc). nra.
Qed.

Lemma tax_from_increment (R : Q) (ths : list Q) :
  forall x y p tax rates,
    0 <= R -> x <= y -> ths <> [] \/ p < x ->
    p <= x -> increasing_from p ths -> rates_within R rates ->
    List.length rates = S (List.length ths) ->
    tax_from y tax p ths rates - tax_from x tax p ths rates <= R * (y - x).
Proof.
  induction ths as [|b ths IH]; intros x y p tax rates HR Hxy Hne Hp Hinc Hw Hlen.
  - destruct Hne as [Hne|Hlt]; [congruence|].
    pose proof (last_within _ _ HR Hw) as [Hl0 HlR].
    rewrite !tax_from_nil by lra. nra.
  - destruct rates as [|r rs]; [discriminate|].
    simpl in Hlen. injection Hlen as Hlen.
    pose proof (rates_nonempty _ _ Hlen) as Hrs.
    destruct Hinc as [Hpb Hinc]. inversion Hw as [|? ? [Hr0 HrR] Hw']; subst.
    destruct (Qlt_le_dec b x) as [Hgt|Hle].
    + rewrite !tax_from_continue by (trivial; lra).
      apply IH; trivial; try lra.
    + rewrite (tax_from_stop x _ _ _ _ _ _ Hle Hinc).
      destruct (Qlt_le_dec b y) as [Hgty|Hley].
      * rewrite (tax_from_continue y _ _ _ _ _ _ Hgty Hrs).
        pose proof (tax_from_upper_bound R y ths b (tax + (b - p) * r) rs
                      HR (Qlt_le_weak _ _ Hgty) Hinc Hw' Hlen).
        nra.
      * rewrite (tax_from_stop y _ _ _ _ _ _ Hley Hinc). nra.
Qed.

(** X3: on a table with at least one threshold that meets the invariant
    and whose rates lie between 0 and [R], raising the income from [x] to
    [y] raises the tax by at most [R * (y - x)] and never lowers it: the
    tax has no jump and an extra dollar is never taxed at more than the
    highest rate. *)
Theorem calculate_tax_increment_bounded (R : Q) (ths rates : list Q) (x y : Q) :
  ths <> [] -> bracket_table ths rates -> rates_within R rates ->
  0 <= x -> x <= y ->
  exists tx ty,
    calculate_tax x ths rates = Ok tx
    /\ calculate_tax y ths rates = Ok ty
    /\ 0 <= ty - tx
    /\ ty - tx <= R * (y - x).
Proof.
  intros Hne [Hinc Hlen] Hw Hx Hxy.
  pose proof (rates_nonempty _ _ Hlen) as Hrs.
  assert (HR : 0 <= R).
  { destruct rates as [|r rs]; [congruence|].
    inversion Hw as [|? ? [H0 H1] _]; subst. lra. }
  exists (tax_value x ths rates), (tax_value y ths rates).
  split; [apply calculate_tax_ok; assumption|].
  split; [apply calculate_tax_ok; assumption|].
  rewrite !tax_value_from by assumption.
  pose proof (tax_from_monotone ths x y 0 0 rates Hxy (or_introl Hne) Hx Hinc
                (rates_within_nonnegative _ _ Hw) Hlen) as Hmono.
  pose proof (tax_from_increment R ths x y 0 0 rates HR Hxy (or_introl Hne) Hx Hinc
                Hw Hlen) as Hup.
  split; lra.
Qed.

Lemma calculate_tax_increment_bounded_witness :
  FEDERAL_BRACKETS <> []
  /\ bracket_table FEDERAL_BRACKETS FEDERAL_RATES
  /\ rates_within 0.33 FEDERAL_RATES
  /\ 0 <= 60000 /\ 60000 <= 250000
  /\ exists tx ty,
       calculate_tax 60000 FEDERAL_BRACKETS FEDERAL_RATES = Ok tx
       /\ calculate_tax 250000 FEDERAL_BRACKETS FEDERAL_RATES = Ok ty
       /\ 0 <= ty - tx
       /\ ty - tx <= 0.33 * (250000 - 60000).
Proof.
  assert (H1 : FEDERAL_BRACKETS <> []) by discriminate.
  assert (H2 : bracket_table FEDERAL_BRACKETS FEDERAL_RATES).
  { unfold bracket_table. simpl. repeat split. }
  assert (H3 : rates_within 0.33 FEDERAL_RATES).
  { repeat constructor; discriminate. }
  assert (H4 : 0 <= 60000) by discriminate.
  assert (H5 : 60000 <= 250000) by discriminate.
  split; [exact H1|]. split; [exact H2|]. split; [exact H3|].
  split; [exact H4|]. split; [exact H5|].
  exact (calculate_tax_increment_bounded 0.33 FEDERAL_BRACKETS FEDERAL_RATES
           60000 250000 H1 H2 H3 H4 H5).
Defined.

(** X4: on such a table the tax on a non-negative income lies between 0
    and [R * income]; with rates of at most 1 the tax never exceeds the
    income. *)
Theorem calculate_tax_between_zero_and_top_rate (R : Q) (ths rates : list Q) (income : Q) :
  ths <> [] -> bracket_table ths rates -> rates_within R rates ->
  0 <= income ->
  exists tax,
    calculate_tax income ths rates = Ok tax
    /\ 0 <= tax
    /\ tax <= R * income.
Proof.
  intros Hne [Hinc Hlen] Hw Hpos.
  pose proof (rates_nonempty _ _ Hlen) as Hrs.
  assert (HR : 0 <= R).
  { destruct rates as [|r rs]; [congruence|].
    inversion Hw as [|? ? [H0 H1] _]; subst. lra. }
  exists (tax_value income ths rates).
  split; [apply calculate_tax_ok; assumption|].
  rewrite !tax_value_from by assumption.
  pose proof (tax_from_lower_bound income ths 0 0 rates Hpos Hinc
                (rates_within_nonnegative _ _ Hw) Hlen).
  pose proof (tax_from_upper_bound R income ths 0 0 rates HR Hpos Hinc Hw Hlen).
  split; lra.
Qed.

Lemma calculate_tax_between_zero_and_top_rate_witness :
  FEDERAL_BRACKETS <> []
  /\ bracket_table FEDERAL_BRACKETS FEDERAL_RATES
  /\ rates_within 0.33 FEDERAL_RATES
  /\ 0 <= 250000
  /\ exists tax,
       calculate_tax 250000 FEDERAL_BRACKETS FEDERAL_RATES = Ok tax
       /\ 0 <= tax
       /\ tax <= 0.33 * 250000.
Proof.
  assert (H1 : FEDERAL_BRACKETS <> []) by discriminate.
  assert (H2 : bracket_table FEDERAL_BRACKETS FEDERAL_RATES).
  { unfold bracket_table. simpl. repeat split. }
  assert (H3 : rates_within 0.33 FEDERAL_RATES).
  { repeat constructor; discriminate. }
  assert (H4 : 0 <= 250000) by discriminate.
  split; [exact H1|]. split; [exact H2|]. split; [exact H3|]. split; [exact H4|].
  exact (calculate_tax_between_zero_and_top_rate 0.33 FEDERAL_BRACKETS FEDERAL_RATES
           250000 H1 H2 H3 H4).
Defined.

(** ** The bracket engine: the rate paid on the next dollar *)

Lemma walk_into_bracket (z b : Q) (post : list Q) (pre : list Q) :
  forall p tax rates,
    increasing_from p (pre ++ b :: post) ->
    List.length rates = S (List.length (pre ++ b :: post)) ->
    Forall (fun a => a < z) pre -> z <= b ->
    tax_from z tax p (pre ++ b :: post) rates
    == tax + sumQ (map width_tax (slices_from p pre rates))
       + (z - last pre p) * nth (List.length pre) rates 0.
Proof.
  induction pre as [|a pre IH]; intros p tax rates Hinc Hlen Hpre Hz;
    (destruct rates as [|r rs]; [discriminate|]);
    simpl in Hlen; injection Hlen as Hlen.
  - destruct Hinc as [_ Hinc]. simpl app.
    rewrite (tax_from_stop _ _ _ _ _ _ _ Hz Hinc).
    unfold sumQ. simpl. ring.
  - destruct Hinc as [_ Hinc]. inversion Hpre as [|? ? Ha Hpre']; subst.
    change ((a :: pre) ++ b :: post) with (a :: pre ++ b :: post).
    rewrite (tax_from_continue _ _ _ _ _ _ _ Ha (rates_nonempty _ _ Hlen)).
    rewrite (IH a _ rs Hinc Hlen Hpre' Hz), last_cons.
    unfold slices_from, sumQ. simpl. ring.
Qed.

Lemma walk_past_all (z : Q) (ths : list Q) :
  forall p tax rates,
    ths <> [] \/ p < z ->
    List.length rates = S (List.length ths) ->
    Forall (fun a => a < z) ths ->
    tax_from z tax p ths rates
    == tax + sumQ (map width_tax (slices_from p ths rates))
       + (z - last ths p) * last rates 0.
Proof.
  induction ths as [|b ths IH]; intros p tax rates Hne Hlen Hall.
  - destruct Hne as [Hne|Hlt]; [congruence|].
    rewrite (tax_from_nil _ _ _ _ Hlt). unfold sumQ, slices_from. simpl. ring.
  - destruct rates as [|r rs]; [discriminate|].
    simpl in Hlen. injection Hlen as Hlen.
    pose proof (rates_nonempty _ _ Hlen) as Hrs.
    inversion Hall as [|? ? Hb Hall']; subst.
    rewrite (tax_from_continue _ _ _ _ _ _ _ Hb Hrs).
    rewrite (IH b _ rs (or_intror Hb) Hlen Hall').
    rewrite last_cons, (last_nonempty _ _ _ Hrs).
    unfold slices_from, sumQ. simpl. ring.
Qed.

Lemma Forall_below_weaken (x y : Q) (l : list Q) :
  x <= y -> Forall (fun a => a < x) l -> Forall (fun a => a < y) l.
Proof.
  intros Hxy H. eapply Forall_impl; [|exact H]. simpl. intros a Ha. lra.
Qed.

(** X5: on a table that meets the invariant, two incomes in the same
    bracket (above every threshold before [b], at most [b]) differ in tax
    by their difference times the rate of that bracket. *)
Theorem calculate_tax_marginal_rate
    (pre : list Q) (b : Q) (post rates : list Q) (x y : Q) :
  bracket_table (pre ++ b :: post) rates ->
  Forall (fun a => a < x) pre -> x <= y -> y <= b ->
  exists tx ty,
    calculate_tax x (pre ++ b :: post) rates = Ok tx
    /\ calculate_tax y (pre ++ b :: post) rates = Ok ty
    /\ ty - tx == (y - x) * nth (List.length pre) rates 0.
Proof.
  intros [Hinc Hlen] Hpre Hxy Hyb.
  pose proof (rates_nonempty _ _ Hlen) as Hrs.
  assert (Hne : pre ++ b :: post <> []) by (destruct pre; discriminate).
  exists (tax_value x (pre ++ b :: post) rates), (tax_value y (pre ++ b :: post) rates).
  split; [apply calculate_tax_ok; assumption|].
  split; [apply calculate_tax_ok; assumption|].
  rewrite !tax_value_from by assumption.
  rewrite (walk_into_bracket x b post pre 0 0 rates Hinc Hlen Hpre) by lra.
  rewrite (walk_into_bracket y b post pre 0 0 rates Hinc Hlen
             (Forall_below_weaken _ _ _ Hxy Hpre) Hyb).
  ring.
Qed.

Lemma calculate_tax_marginal_rate_witness :
  bracket_table ([50197] ++ 100392 :: [155625; 221708]) FEDERAL_RATES
  /\ Forall (fun a => a < 60000) [50197]
  /\ 60000 <= 90000 /\ 90000 <= 100392
  /\ exists tx ty,
       calculate_tax 60000 ([50197] ++ 100392 :: [155625; 221708]) FEDERAL_RATES = Ok tx
       /\ calculate_tax 90000 ([50197] ++ 100392 :: [155625; 221708]) FEDERAL_RATES = Ok ty
       /\ ty - tx == (90000 - 60000) * nth (List.length [50197]) FEDERAL_RATES 0.
Proof.
  assert (H1 : bracket_table ([50197] ++ 100392 :: [155625; 221708]) FEDERAL_RATES).
  { unfold bracket_table. simpl. repeat split. }
  assert (H2 : Forall (fun a => a < 60000) [50197]) by (repeat constructor).
  assert (H3 : 60000 <= 90000) by discriminate.
  assert (H4 : 90000 <= 100392) by discriminate.
  split; [exact H1|]. split; [exact H2|]. split; [exact H3|]. split; [exact H4|].
  exact (calculate_tax_marginal_rate [50197] 100392 [155625; 221708] FEDERAL_RATES
           60000 90000 H1 H2 H3 H4).
Defined.

(** X6: with one more rate than thresholds, two incomes above every
    threshold differ in tax by their difference times the last rate,
    whatever the order of the thresholds. *)
Theorem calculate_tax_top_rate (ths rates : list Q) (x y : Q) :
  ths <> [] -> List.length rates = S (List.length ths) ->
  Forall (fun a => a < x) ths -> x <= y ->
  exists tx ty,
    calculate_tax x ths rates = Ok tx
    /\ calculate_tax y ths rates = Ok ty
    /\ ty - tx == (y - x) * last rates 0.
Proof.
  intros Hne Hlen Hall Hxy.
  pose proof (rates_nonempty _ _ Hlen) as Hrs.
  exists (tax_value x ths rates), (tax_value y ths rates).
  split; [apply calculate_tax_ok; assumption|].
  split; [apply calculate_tax_ok; assumption|].
  rewrite !tax_value_from by assumption.
  rewrite (walk_past_all x ths 0 0 rates (or_introl Hne) Hlen Hall).
  rewrite (walk_past_all y ths 0 0 rates (or_introl Hne) Hlen
             (Forall_below_weaken _ _ _ Hxy Hall)).
  ring.
Qed.

Lemma calculate_tax_top_rate_witness :
  [100; 50] <> [] /\ List.length [0.1; 0.2; 0.3] = S (List.length [100; 50])
  /\ Forall (fun a => a < 150) [100; 50] /\ 150 <= 250
  /\ exists tx ty,
       calculate_tax 150 [100; 50] [0.1; 0.2; 0.3] = Ok tx
       /\ calculate_tax 250 [100; 50] [0.1; 0.2; 0.3] = Ok ty
       /\ ty - tx == (250 - 150) * last [0.1; 0.2; 0.3] 0.
Proof.
  assert (H1 : [100; 50] <> (@nil Q)) by discriminate.
  assert (H2 : List.length [0.1; 0.2; 0.3] = S (List.length [100; 50])) by reflexivity.
  assert (H3 : Forall (fun a => a < 150) [100; 50]) by (repeat constructor).
  assert (H4 : 150 <= 250) by discriminate.
  split; [exact H1|]. split; [exact H2|]. split; [exact H3|]. split; [exact H4|].
  exact (calculate_tax_top_rate [100; 50] [0.1; 0.2; 0.3] 150 250 H1 H2 H3 H4).
Defined.

(** ** Contributions: growth *)

Lemma cpp_contribution_growth (x y : Q) :
  0 <= x -> x <= y ->
  0 <= cpp_contribution x
  /\ cpp_contribution x <= cpp_contribution y
  /\ cpp_contribution y - cpp_contribution x <= 0.0525 * (y - x).
Proof.
  intros Hx Hxy. unfold cpp_contribution, CPP_RATE, CPP_MAX.
  split_lt (x * 0.0525) 3500; split_lt (y * 0.0525) 3500; repeat split; lra.
Qed.

Lemma ei_contribution_growth (x y : Q) :
  0 <= x -> x <= y ->
  0 <= ei_contribution x
  /\ ei_contribution x <= ei_contribution y
  /\ ei_contribution y - ei_contribution x <= 0.0158 * (y - x).
Proof.
  intros Hx Hxy. unfold ei_contribution, EI_RATE, EI_MAX.
  split_lt (x * 0.0158) 889.54; split_lt (y * 0.0158) 889.54; repeat split; lra.
Qed.

(** X7: for incomes [0 <= x <= y] both contributions are non-negative, do
    not decrease from [x] to [y], and grow by at most their rate times
    [y - x]. *)
Theorem contributions_grow_slowly (x y : Q) :
  0 <= x -> x <= y ->
  (0 <= cpp_contribution x
   /\ cpp_contribution x <= cpp_contribution y
   /\ cpp_contribution y - cpp_contribution x <= CPP_RATE * (y - x))
  /\ (0 <= ei_contribution x
      /\ ei_contribution x <= ei_contribution y
      /\ ei_contribution y - ei_contribution x <= EI_RATE * (y - x)).
Proof.
  intros Hx Hxy. split.
  - exact (cpp_contribution_growth x y Hx Hxy).
  - exact (ei_contribution_growth x y Hx Hxy).
Qed.

Lemma contributions_grow_slowly_witness :
  0 <= 50000 /\ 50000 <= 70000
  /\ (0 <= cpp_contribution 50000
      /\ cpp_contribution 50000 <= cpp_contribution 70000
      /\ cpp_contribution 70000 - cpp_contribution 50000 <= CPP_RATE * (70000 - 50000))
  /\ (0 <= ei_contribution 50000
      /\ ei_contribution 50000 <= ei_contribution 70000
      /\ ei_contribution 70000 - ei_contribution 50000 <= EI_RATE * (70000 - 50000)).
Proof.
  assert (H1 : 0 <= 50000) by discriminate.
  assert (H2 : 50000 <= 70000) by discriminate.
  split; [exact H1|]. split; [exact H2|].
  exact (contributions_grow_slowly 50000 70000 H1 H2).
Defined.

(** ** The shipped tables: growth *)

Lemma valid_table_grows_at_most (c : Q) (info : TaxInfo) :
  brackets info <> [] -> bracket_table (brackets info) (rates info) ->
  rates_within c (rates info) ->
  grows_at_most c info.
Proof.
  intros Hne [Hinc Hlen] Hw x y Hx Hxy.
  pose proof (rates_nonempty _ _ Hlen) as Hrs.
  assert (Hc : 0 <= c).
  { destruct (rates info) as [|r rs]; [congruence|].
    inversion Hw as [|? ? [H0 H1] _]; subst. lra. }
  rewrite !tax_value_from by assumption.
  pose proof (tax_from_lower_bound x (brackets info) 0 0 (rates info) Hx Hinc
                (rates_within_nonnegative _ _ Hw) Hlen).
  pose proof (tax_from_upper_bound c x (brackets info) 0 0 (rates info) Hc Hx Hinc
                Hw Hlen).
  pose proof (tax_from_increment c (brackets info) x y 0 0 (rates info) Hc Hxy
                (or_introl Hne) Hx Hinc Hw Hlen).
  repeat split; lra.
Qed.

(** The tax on the Quebec table, bracket by bracket. *)
Lemma quebec_tax_cases (x : Q) :
  let t := tax_value x (brackets QUEBEC) (rates QUEBEC) in
  (x <= 46295 /\ t == x * 0.15)
  \/ (46295 < x /\ x <= 92595 /\ t == 46295 * 0.15 + (x - 46295) * 0.20)
  \/ (92595 < x /\ x <= 108390
      /\ t == 46295 * 0.15 + (92595 - 46295) * 0.20 + (x - 92595) * 0.24)
  \/ (108390 < x /\ x <= 113785
      /\ t == 46295 * 0.15 + (92595 - 46295) * 0.20 + (x - 92595) * 0.24
              + (x - 108390) * 0.2575)
  \/ (113785 < x
      /\ t == 46295 * 0.15 + (92595 - 46295) * 0.20 + (113785 - 92595) * 0.24
              + (x - 113785) * 0.2575).
Proof.
  intros t. subst t. unfold tax_value, calculate_tax.
  cbn [QUEBEC brackets rates combine bracket_loop last_item last].
  destruct (Qlt_le_dec 46295 x) as [H1|H1];
    [destruct (Qlt_le_dec 92595 x) as [H2|H2];
     [destruct (Qlt_le_dec 108390 x) as [H3|H3];
      [destruct (Qlt_le_dec 113785 x) as [H4|H4]|]|]|].
  - right; right; right; right. split; [exact H4|]. decide_tests. ring.
  - right; right; right; left. split; [exact H3|]. split; [exact H4|].
    decide_tests. ring.
  - right; right; left. split; [exact H2|]. split; [exact H3|]. decide_tests. ring.
  - right; left. split; [exact H1|]. split; [exact H2|]. decide_tests. ring.
  - left. split; [exact H1|]. decide_tests. ring.
Qed.

Lemma quebec_grows_at_most : grows_at_most 0.5 QUEBEC.
Proof.
  intros x y Hx Hxy.
  pose proof (quebec_tax_cases x) as Cx. pose proof (quebec_tax_cases y) as Cy.
  cbv zeta in Cx, Cy.
  destruct Cx as [[? Ex]|[(? & ? & Ex)|[(? & ? & Ex)|[(? & ? & Ex)|[? Ex]]]]];
    destruct Cy as [[? Ey]|[(? & ? & Ey)|[(? & ? & Ey)|[(? & ? & Ey)|[? Ey]]]]];
    rewrite Ex, Ey; repeat split; lra.
Qed.

Lemma registry_grows_at_most :
  Forall (fun e : string * TaxInfo => grows_at_most 0.5 (snd e)) PROVINCIAL_TAX_INFO.
Proof.
  unfold PROVINCIAL_TAX_INFO.
  repeat (apply Forall_cons;
          [first [ exact quebec_grows_at_most
                 | apply valid_table_grows_at_most;
                   [ discriminate
                   | apply bracket_table_ok_spec; reflexivity
                   | repeat constructor; discriminate ] ]|]).
  apply Forall_nil.
Qed.

Lemma federal_grows_at_most :
  grows_at_most 0.33 (mkTaxInfo FEDERAL_BRACKETS FEDERAL_RATES).
Proof.
  apply valid_table_grows_at_most;
    [ discriminate
    | apply bracket_table_ok_spec; reflexivity
    | repeat constructor; discriminate ].
Qed.

(** ** The page: what the lines and the table hold *)

Lemma multiplier_positive (f : Frequency) : 0 < multiplier f.
Proof. destruct f; reflexivity. Qed.


Lemma annual_net_grows (info : TaxInfo) (x y : Q) :
  grows_at_most 0.5 info -> 0 <= x -> x <= y ->
  0 <= annual_net x info /\ annual_net x info <= annual_net y info.
Proof.
  intros Hg Hx Hxy. unfold annual_net.
  destruct (Hg x y Hx Hxy) as (Hp0 & Hp1 & Hp2).
  destruct (federal_grows_at_most x y Hx Hxy) as (Hf0 & Hf1 & Hf2). simpl in Hf0, Hf1, Hf2.
  destruct (cpp_contribution_growth x y Hx Hxy) as (Hc0 & _ & Hc2).
  destruct (ei_contribution_growth x y Hx Hxy) as (He0 & _ & He2).
  destruct (cpp_contribution_growth 0 x (Qle_refl 0) Hx) as (_ & _ & Hc1).
  destruct (ei_contribution_growth 0 x (Qle_refl 0) Hx) as (_ & _ & He1).
  assert (Hcz : cpp_contribution 0 == 0) by reflexivity.
  assert (Hez : ei_contribution 0 == 0) by reflexivity.
  split; lra.
Qed.


Lemma table_shown_lines (ui : Inputs) (fed ptax : Q) (rows : list (string * Q)) :
  table_shown (shown_lines ui fed ptax ++ [ComparisonTable rows]) = Some rows.
Proof.
  unfold shown_lines.
  destruct (show_federal_tax ui), (show_prov_tax ui), (show_cpp ui), (show_ei ui);
    reflexivity.
Qed.

Lemma comparison_rows_are_nets (m income : Q) (items : list (string * TaxInfo)) :
  scale_rows m (comparison_nets income
                  (tax_value income FEDERAL_BRACKETS FEDERAL_RATES)
                  (cpp_contribution income) (ei_contribution income) items)
  = map (fun e => (fst e, annual_net income (snd e) * m)) items.
Proof.
  unfold scale_rows, comparison_nets. rewrite map_map. reflexivity.
Qed.

(** X8: with the four checkboxes ticked and a registered province, the
    page is the five lines and the table, and the five amounts add up to
    the annual income at the output frequency: what is deducted and what
    is left account for the whole income. *)
Theorem shown_amounts_add_up (ui : Inputs) :
  In (province ui) (map fst PROVINCIAL_TAX_INFO) ->
  show_federal_tax ui = true -> show_prov_tax ui = true ->
  show_cpp ui = true -> show_ei ui = true ->
  let f := output_frequency ui in
  exists fed prov cpp ei net table,
    run ui = ([FederalTaxLine f fed; ProvincialTaxLine f (province ui) prov;
               CPPLine f cpp; EILine f ei; NetIncomeLine f (province ui) net;
               ComparisonTable table], Ok tt)
    /\ fed + prov + cpp + ei + net == annual_income ui * multiplier f.
Proof.
  intros Hreg H1 H2 H3 H4 f.
  destruct (getitem_present _ _ Hreg) as [info Hget].
  rewrite (run_known ui info Hget). unfold shown_lines.
  rewrite H1, H2, H3, H4. simpl app.
  do 6 eexists. split; [reflexivity|]. fold f. ring.
Qed.

Lemma shown_amounts_add_up_witness :
  let ui := mkInputs "Manitoba" AnnualInput 80000 Monthly true true true true in
  In (province ui) (map fst PROVINCIAL_TAX_INFO)
  /\ show_federal_tax ui = true /\ show_prov_tax ui = true
  /\ show_cpp ui = true /\ show_ei ui = true
  /\ exists fed prov cpp ei net table,
       run ui = ([FederalTaxLine (output_frequency ui) fed;
                  ProvincialTaxLine (output_frequency ui) (province ui) prov;
                  CPPLine (output_frequency ui) cpp; EILine (output_frequency ui) ei;
                  NetIncomeLine (output_frequency ui) (province ui) net;
                  ComparisonTable table], Ok tt)
       /\ fed + prov + cpp + ei + net
          == annual_income ui * multiplier (output_frequency ui).
Proof.
  intros ui.
  assert (H : In (province ui) (map fst PROVINCIAL_TAX_INFO)).
  { simpl. do 2 right. left. reflexivity. }
  split; [exact H|]. do 4 (split; [reflexivity|]).
  exact (shown_amounts_add_up ui H eq_refl eq_refl eq_refl eq_refl).
Defined.

(** X9: the checkboxes only hide lines.  The page is the page with every
    box ticked, filtered by the boxes; the net income line and the table
    are never hidden, no amount changes, and the outcome (done, or the
    exception raised) is the same. *)
Theorem checkboxes_only_hide_lines (ui : Inputs) :
  fst (run ui) = filter (visible ui) (fst (run (show_everything ui)))
  /\ snd (run ui) = snd (run (show_everything ui)).
Proof.
  destruct (getitem PROVINCIAL_TAX_INFO (province ui)) as [info|e] eqn:Hget.
  - rewrite (run_known ui info Hget).
    rewrite (run_known (show_everything ui) info Hget).
    split; [|reflexivity].
    destruct ui as [p ty en f sf sp sc se]. unfold shown_lines. simpl.
    destruct sf, sp, sc, se; reflexivity.
  - rewrite (run_unknown ui e Hget), (run_unknown (show_everything ui) e Hget).
    split; reflexivity.
Qed.

(** X10: the comparison table does not depend on the province selected
    nor on the checkboxes: two presses with the same income, income type
    and output frequency, each on a registered province, show the same
    table. *)
Theorem comparison_table_ignores_selection
    (ui : Inputs) (other : string) (sf sp sc se : bool) :
  In (province ui) (map fst PROVINCIAL_TAX_INFO) ->
  In other (map fst PROVINCIAL_TAX_INFO) ->
  let ui' := mkInputs other (income_type ui) (entered_income ui) (output_frequency ui)
                      sf sp sc se in
  exists rows,
    table_shown (fst (run ui)) = Some rows
    /\ table_shown (fst (run ui')) = Some rows.
Proof.
  intros H1 H2 ui'.
  destruct (getitem_present _ _ H1) as [info Hget].
  destruct (getitem_present _ _ H2) as [info' Hget'].
  rewrite (run_known ui info Hget), (run_known ui' info' Hget').
  eexists. split; apply table_shown_lines.
Qed.

Lemma comparison_table_ignores_selection_witness :
  let ui := mkInputs "Ontario" AnnualInput 90000 Monthly true true true true in
  let ui' := mkInputs "Yukon" (income_type ui) (entered_income ui) (output_frequency ui)
                      false true false true in
  In (province ui) (map fst PROVINCIAL_TAX_INFO)
  /\ In "Yukon"%string (map fst PROVINCIAL_TAX_INFO)
  /\ exists rows,
       table_shown (fst (run ui)) = Some rows
       /\ table_shown (fst (run ui')) = Some rows.
Proof.
  intros ui ui'.
  assert (H1 : In (province ui) (map fst PROVINCIAL_TAX_INFO)).
  { simpl. do 8 right. left. reflexivity. }
  assert (H2 : In "Yukon"%string (map fst PROVINCIAL_TAX_INFO)).
  { simpl. do 12 right. left. reflexivity. }
  split; [exact H1|]. split; [exact H2|].
  exact (comparison_table_ignores_selection ui "Yukon" false true false true H1 H2).
Defined.

Lemma scaled_nonnegative (a : Q) (f : Frequency) :
  0 <= a -> 0 <= a * multiplier f.
Proof.
  intros Ha. apply Qmult_le_0_compat; [exact Ha|].
  apply Qlt_le_weak, multiplier_positive.
Qed.


Lemma registered_grows_at_most (prov : string) (info : TaxInfo) :
  In (prov, info) PROVINCIAL_TAX_INFO -> grows_at_most 0.5 info.
Proof.
  intros Hin. pose proof registry_grows_at_most as H.
  rewrite Forall_forall in H. exact (H _ Hin).
Qed.


(** X11: for a non-negative entered income no amount on the page is
    negative: the federal and provincial tax, both contributions, the net
    income, and the net income of every row of the table, the Quebec row
    included. *)
Theorem page_amounts_nonnegative (ui : Inputs) :
  0 <= entered_income ui ->
  Forall (fun a => 0 <= a) (displayed_amounts (fst (run ui))).
Proof.
  intros Hpos.
  destruct (getitem PROVINCIAL_TAX_INFO (province ui)) as [info|e] eqn:Hget.
  2:{ rewrite (run_unknown ui e Hget). constructor. }
  rewrite (run_known ui info Hget). cbv zeta. cbn [fst].
  set (income := annual_income ui).
  assert (Hinc : 0 <= income).
  { unfold income, annual_income. destruct (income_type ui); lra. }
  pose proof (registered_grows_at_most _ _ (getitem_In _ _ _ Hget)) as Hg.
  destruct (Hg income income Hinc (Qle_refl _)) as (Hp & _ & _).
  destruct (federal_grows_at_most income income Hinc (Qle_refl _)) as (Hf & _ & _).
  simpl in Hf.
  destruct (cpp_contribution_growth income income Hinc (Qle_refl _)) as (Hc & _ & _).
  destruct (ei_contribution_growth income income Hinc (Qle_refl _)) as (He & _ & _).
  destruct (annual_net_grows info income income Hg Hinc (Qle_refl _)) as (Hn & _).
  unfold annual_net in Hn. fold income in Hn.
  unfold displayed_amounts. rewrite flat_map_app. apply Forall_app. split.
  - fold (displayed_amounts
            (shown_lines ui (tax_value income FEDERAL_BRACKETS FEDERAL_RATES)
               (tax_value income (brackets info) (rates info)))).
    rewrite displayed_lines. unfold annual_lines. fold income.
    destruct (show_federal_tax ui), (show_prov_tax ui), (show_cpp ui), (show_ei ui);
      simpl; repeat constructor; apply scaled_nonnegative; assumption.
  - cbn [flat_map amounts]. rewrite app_nil_r, comparison_rows_are_nets, map_map.
    apply Forall_forall. intros a Ha. apply in_map_iff in Ha.
    destruct Ha as [[prov i] [<- Hin]]. simpl.
    apply scaled_nonnegative.
    exact (proj1 (annual_net_grows i income income
                    (registered_grows_at_most _ _ Hin) Hinc (Qle_refl _))).
Qed.

Lemma page_amounts_nonnegative_witness :
  let ui := mkInputs "Quebec" AnnualInput 113000 Biweekly true true true true in
  0 <= entered_income ui
  /\ Forall (fun a => 0 <= a) (displayed_amounts (fst (run ui))).
Proof.
  intros ui.
  assert (H : 0 <= entered_income ui) by discriminate.
  split; [exact H|]. exact (page_amounts_nonnegative ui H).
Defined.



(** ** The bracket engine: incomes below the first threshold *)

(** X13: on a table that meets the invariant, every income up to the
    first threshold, a negative one included, is taxed at the first rate
    on its whole amount; nothing clamps the result, so with a positive
    first rate a negative income gets a negative tax. *)
Theorem calculate_tax_below_first_threshold
    (income b r : Q) (ths rs : list Q) :
  bracket_table (b :: ths) (r :: rs) -> income <= b ->
  exists tax,
    calculate_tax income (b :: ths) (r :: rs) = Ok tax
    /\ tax == income * r
    /\ (income < 0 -> 0 < r -> tax < 0).
Proof.
  intros [[_ Hinc] _] Hle.
  exists (tax_value income (b :: ths) (r :: rs)).
  split; [apply calculate_tax_ok; discriminate|].
  assert (E : tax_value income (b :: ths) (r :: rs) == income * r).
  { rewrite tax_value_from by discriminate.
    rewrite (tax_from_stop _ _ _ _ _ _ _ Hle Hinc). ring. }
  split; [exact E|].
  intros Hneg Hr. rewrite E. nra.
Qed.

Lemma calculate_tax_below_first_threshold_witness :
  bracket_table (50197 :: [100392; 155625; 221708]) (0.15 :: [0.205; 0.26; 0.29; 0.33])
  /\ -1000 <= 50197
  /\ exists tax,
       calculate_tax (-1000) (50197 :: [100392; 155625; 221708])
                     (0.15 :: [0.205; 0.26; 0.29; 0.33]) = Ok tax
       /\ tax == -1000 * 0.15
       /\ (-1000 < 0 -> 0 < 0.15 -> tax < 0).
Proof.
  assert (H1 : bracket_table (50197 :: [100392; 155625; 221708])
                             (0.15 :: [0.205; 0.26; 0.29; 0.33])).
  { unfold bracket_table. simpl. repeat split. }
  assert (H2 : -1000 <= 50197) by discriminate.
  split; [exact H1|]. split; [exact H2|].
  exact (calculate_tax_below_first_threshold (-1000) 50197 0.15
           [100392; 155625; 221708] [0.205; 0.26; 0.29; 0.33] H1 H2).
Defined.
